(** * news-scraper: a shallow embedding of [Main.py]

    The script fetches paginated listing pages over HTTP with a bounded
    retry, extracts (title, link) pairs from the parsed document, gathers
    the results of all page tasks and filters them by an optional keyword.

    Conventions of the embedding:
    - a Python [str] is a [string]; a character stands for one code point
      (the code points below 256);
    - a Python [int] is a [Z];
    - [None]-or-value is an [option];
    - a call that may raise is an [Outcome]; code with effects on the
      network and on the console runs in the monad [M] over a [World];
    - library functions the script calls but does not define
      ([str.lower], the [html.parser] tree builder, the HTTP client) are
      parameters of the definitions that use them. *)

From Stdlib Require Import ZArith String Ascii List Lia Permutation DecimalString.
From Stdlib Require DecimalZ DecimalPos.
From stdpp Require Import base option list strings gmap.

Local Open Scope string_scope.
Local Open Scope list_scope.
Local Open Scope Z_scope.

(** ** Strings *)

(** Truth value of a [str]: only the empty string is falsy. *)
Definition str_truthy (s : string) : bool :=
  match s with
  | EmptyString => false
  | String _ _ => true
  end.

(** [hay.startswith(p)] *)
Fixpoint str_startswith (p hay : string) : bool :=
  match p, hay with
  | EmptyString, _ => true
  | String _ _, EmptyString => false
  | String a p', String b hay' => Ascii.eqb a b && str_startswith p' hay'
  end.

(** [needle in hay] on strings: [needle] occurs at some offset of [hay]. *)
Fixpoint str_in (needle hay : string) : bool :=
  str_startswith needle hay
  || match hay with
     | EmptyString => false
     | String _ hay' => str_in needle hay'
     end.

(** The relation [str_in] decides. *)
Definition Substring (needle hay : string) : Prop :=
  exists pre post : string, hay = pre +:+ needle +:+ post.

(** ** Article entries and the keyword filter *)

(** An entry is the tuple [(title, link)] appended by [parse_news]. *)
Definition news : Type := string * string.

Section Filter.
(** [str.lower] *)
Variable lower : string -> string.

Definition filter_news_by_keyword
    (news_list : list news) (keyword : option string) : list news :=
  match keyword with
  | None => news_list
  | Some kw =>
      if negb (str_truthy kw) then news_list
      else
        let keyword_lower := lower kw in
        List.filter (fun news => str_in keyword_lower (lower (fst news)))
                    news_list
  end.

(** What the test of line 79 decides for the entry [e]. *)
Definition matches (k : string) (e : news) : Prop :=
  Substring (lower k) (lower (fst e)).
End Filter.

(** [str.lower] on the code points below 256: the letters A-Z and the
    upper-case letters of the Latin-1 block (all of 0xC0-0xDE but the
    multiplication sign 0xD7) move up by 32. *)
Definition chr_lower (c : ascii) : ascii :=
  let n := N_of_ascii c in
  if ((65 <=? n) && (n <=? 90))%N then ascii_of_N (n + 32)
  else if ((192 <=? n) && (n <=? 222) && negb (n =? 215))%N
       then ascii_of_N (n + 32)
       else c.

Fixpoint latin1_lower (s : string) : string :=
  match s with
  | EmptyString => EmptyString
  | String c s' => String (chr_lower c) (latin1_lower s')
  end.

(** ** Exceptions, outcomes and the world *)

(** The exceptions the script distinguishes.  [fetch_html] handles
    [requests.exceptions.RequestException] only, [parse_news] and [main]
    handle every [Exception]. *)
Inductive PyExc : Type :=
| HTTPError (status : Z)            (* raised by [raise_for_status] *)
| RequestException (msg : string)   (* any other member of that hierarchy *)
| OtherException (msg : string).    (* an [Exception] outside of it *)

Definition is_RequestException (e : PyExc) : bool :=
  match e with
  | HTTPError _ | RequestException _ => true
  | OtherException _ => false
  end.

(** [except Exception]: every exception of the model is an instance. *)
Definition is_Exception (e : PyExc) : bool := true.

Inductive Outcome (A : Type) : Type :=
| Return (a : A)
| Raise (e : PyExc).
Arguments Return {A} a.
Arguments Raise {A} e.

(** What leaves a loop body: the enclosing function returns, or the loop
    goes on with its next iteration. *)
Inductive LoopStep (A : Type) : Type :=
| ReturnValue (a : A)
| NextIteration.
Arguments ReturnValue {A} a.
Arguments NextIteration {A}.

(** The part of [requests.Response] the script reads. *)
Record Response : Type := { status_code : Z; text : string }.

(** Lines written to the console, by the statement that prints them. *)
Inductive Message : Type :=
| AttemptFailed (url : string) (attempt max_retries : Z) (e : PyExc)
| RetriesExhausted (url : string)
| ParseFailed (e : PyExc)
| TaskFailed (page : Z) (e : PyExc)
| NothingMatches
| Separator
| NumberedTitle (i : Z) (title : string)
| LinkLine (link : string)
| NoArticles.

(** The effects of a run, oldest first: the URLs requested with
    [requests.get], the arguments of [time.sleep], the console. *)
Record World : Type :=
  { requested : list string; slept : list Z; stdout : list Message }.

Definition M (A : Type) : Type := World -> Outcome A * World.

(** The world before anything happened. *)
Definition empty_world : World :=
  {| requested := []; slept := []; stdout := [] |}.


Definition ret {A} (a : A) : M A := fun w => (Return a, w).

Definition raise {A} (e : PyExc) : M A := fun w => (Raise e, w).

Definition bind {A B} (m : M A) (k : A -> M B) : M B :=
  fun w =>
    match m w with
    | (Return a, w') => k a w'
    | (Raise e, w') => (Raise e, w')
    end.

Declare Scope py_scope.
Delimit Scope py_scope with py.
Notation "x <- m ;; k" := (bind m (fun x => k))
  (at level 100, m at next level, right associativity) : py_scope.
Notation "m ;;; k" := (bind m (fun _ => k))
  (at level 100, right associativity) : py_scope.
Local Open Scope py_scope.

(** [try: body / except C as e: handler e] for the exception classes
    selected by [catches]. *)
Definition try_except {A} (body : M A) (catches : PyExc -> bool)
    (handler : PyExc -> M A) : M A :=
  fun w =>
    match body w with
    | (Return a, w') => (Return a, w')
    | (Raise e, w') => if catches e then handler e w' else (Raise e, w')
    end.

Definition print (m : Message) : M unit :=
  fun w =>
    (Return tt,
     {| requested := requested w; slept := slept w;
        stdout := stdout w ++ [m] |}).

(** The longest delay [time.sleep] takes: the seconds a signed 64-bit
    count of nanoseconds can hold. *)
Definition SLEEP_MAX : Z := 9223372036.

Definition sleep_accepts (seconds : Z) : bool :=
  (0 <=? seconds) && (seconds <=? SLEEP_MAX).

(** What [time.sleep] raises for a delay it does not take. *)
Definition sleep_error (seconds : Z) : PyExc :=
  if seconds <? 0
  then OtherException "ValueError: sleep length must be non-negative"
  else OtherException "OverflowError: timestamp too large to convert".

(** [time.sleep(seconds)]: a negative delay and one beyond [SLEEP_MAX]
    raise, any other delay is waited for. *)
Definition sleep (seconds : Z) : M unit :=
  fun w =>
    if sleep_accepts seconds
    then (Return tt,
          {| requested := requested w; slept := slept w ++ [seconds];
             stdout := stdout w |})
    else (Raise (sleep_error seconds), w).

(** [range(start, stop)] *)
Definition range (start stop : Z) : list Z := seqZ start (stop - start).

(** [str(n)] for an [int] *)
Definition str_of_int (n : Z) : string := NilZero.string_of_int (Z.to_int n).

(** ** The fetcher *)

(** [response.raise_for_status()]: client and server error statuses raise
    [HTTPError]. *)
Definition raise_for_status (r : Response) : M unit :=
  if (400 <=? status_code r) && (status_code r <? 600)
  then raise (HTTPError (status_code r))
  else ret tt.

Definition default_max_retries : Z := 3.
Definition default_retry_delay : Z := 2.

Section Fetcher.
(** The HTTP client: [http n url] is what [requests.get(url)] does when
    [n] requests were issued before it, a response or an exception. *)
Variable http : nat -> string -> Outcome Response.

Definition requests_get (url : string) : M Response :=
  fun w =>
    (http (length (requested w)) url,
     {| requested := requested w ++ [url]; slept := slept w;
        stdout := stdout w |}).

(** One iteration of the loop of [fetch_html]. *)
Definition fetch_html_attempt (url : string) (max_retries retry_delay : Z)
    (attempt : Z) : M (LoopStep (option string)) :=
  try_except
    (response <- requests_get url ;;
     raise_for_status response ;;;
     ret (ReturnValue (Some (text response))))
    is_RequestException
    (fun e =>
       print (AttemptFailed url (attempt + 1) max_retries e) ;;;
       (if attempt <? max_retries - 1 then sleep retry_delay else ret tt) ;;;
       ret NextIteration).

Fixpoint fetch_html_loop (url : string) (max_retries retry_delay : Z)
    (attempts : list Z) : M (option string) :=
  match attempts with
  | [] =>
      print (RetriesExhausted url) ;;;
      ret None
  | attempt :: rest =>
      step <- fetch_html_attempt url max_retries retry_delay attempt ;;
      match step with
      | ReturnValue v => ret v
      | NextIteration => fetch_html_loop url max_retries retry_delay rest
      end
  end.

Definition fetch_html (url : string) (max_retries retry_delay : Z)
    : M (option string) :=
  fetch_html_loop url max_retries retry_delay (range 0 max_retries).
End Fetcher.
Arguments fetch_html_attempt : simpl never.

(** An attempt fails when the request raises a [RequestException] or the
    response carries an error status. *)
Definition attempt_fails (o : Outcome Response) : bool :=
  match o with
  | Return r => (400 <=? status_code r) && (status_code r <? 600)
  | Raise e => is_RequestException e
  end.

Definition attempt_succeeds (o : Outcome Response) : option string :=
  match o with
  | Return r =>
      if (400 <=? status_code r) && (status_code r <? 600) then None
      else Some (text r)
  | Raise _ => None
  end.

(** ** The parsed document *)

(** The classes of text nodes: [NavigableString] itself, [CData],
    [Comment], and the remaining subclasses (doctype, script, ...). *)
Inductive StringKind : Type := PlainText | CData | Comment | OtherString.

(** A node of the tree: a text node or a tag with its name, the value of
    its multi-valued [class] attribute, its other attributes and its
    children. *)
#[warnings="-register-all"]
Inductive PageElement : Type :=
| NavigableString (kind : StringKind) (s : string)
| Tag (name : string) (classes : list string) (attrs : gmap string string)
      (contents : list PageElement).

Definition tag_attrs (e : PageElement) : gmap string string :=
  match e with
  | Tag _ _ attrs _ => attrs
  | NavigableString _ _ => ∅
  end.

(** [tag.descendants]: all nodes below [e] in document order. *)
Fixpoint descendants (e : PageElement) : list PageElement :=
  match e with
  | NavigableString _ _ => []
  | Tag _ _ _ contents =>
      (fix below (cs : list PageElement) : list PageElement :=
         match cs with
         | [] => []
         | c :: cs' => c :: descendants c ++ below cs'
         end) contents
  end.

(** A tag named [name] that carries the class [class]. *)
Definition is_tag_with_class (name class : string) (e : PageElement) : bool :=
  match e with
  | Tag n classes _ _ =>
      String.eqb n name && existsb (String.eqb class) classes
  | NavigableString _ _ => false
  end.

(** [soup.select('h3.c-title')] *)
Definition select_h3_c_title (soup : PageElement) : list PageElement :=
  List.filter (is_tag_with_class "h3" "c-title") (descendants soup).

(** [item.find('a', class_='c-title__link')]: the first match or [None]. *)
Definition find_a_c_title_link (item : PageElement) : option PageElement :=
  List.find (is_tag_with_class "a" "c-title__link") (descendants item).

(** [str.isspace] of one character, on the code points below 256. *)
Definition chr_isspace (c : ascii) : bool :=
  let n := N_of_ascii c in
  (((9 <=? n) && (n <=? 13)) || ((28 <=? n) && (n <=? 32))
   || (n =? 133) || (n =? 160))%N.

Fixpoint str_lstrip (s : string) : string :=
  match s with
  | EmptyString => EmptyString
  | String c s' => if chr_isspace c then str_lstrip s' else s
  end.

Fixpoint str_rstrip (s : string) : string :=
  match s with
  | EmptyString => EmptyString
  | String c s' =>
      match str_rstrip s' with
      | EmptyString => if chr_isspace c then EmptyString
                       else String c EmptyString
      | r => String c r
      end
  end.

(** [s.strip()] *)
Definition str_strip (s : string) : string := str_rstrip (str_lstrip s).

(** The strings [get_text(strip=True)] joins: the text nodes of class
    [NavigableString] or [CData] below the tag, stripped, the empty ones
    left out. *)
Definition stripped_strings (e : PageElement) : list string :=
  flat_map
    (fun d =>
       match d with
       | NavigableString (PlainText | CData) s =>
           if str_truthy (str_strip s) then [str_strip s] else []
       | _ => []
       end)
    (descendants e).

(** [tag.get_text(strip=True)] *)
Definition get_text_strip (e : PageElement) : string :=
  fold_right String.append EmptyString (stripped_strings e).

(** ** The extractor *)

(** The loop of [parse_news] over the selected containers. *)
Fixpoint parse_items (items : list PageElement) (news_list : list news)
    : list news :=
  match items with
  | [] => news_list
  | item :: rest =>
      match find_a_c_title_link item with
      | Some a_tag =>
          match tag_attrs a_tag !! "href" with
          | Some link =>
              let title := get_text_strip a_tag in
              parse_items rest (news_list ++ [(title, link)])
          | None => parse_items rest news_list
          end
      | None => parse_items rest news_list
      end
  end.

(** What one container adds to the list, if anything. *)
Definition entry_of (item : PageElement) : option news :=
  match find_a_c_title_link item with
  | Some a_tag =>
      match tag_attrs a_tag !! "href" with
      | Some link => Some (get_text_strip a_tag, link)
      | None => None
      end
  | None => None
  end.

(** [s] has only white space in it (or nothing). *)
Fixpoint str_all_space (s : string) : bool :=
  match s with
  | EmptyString => true
  | String c s' => chr_isspace c && str_all_space s'
  end.

Definition lift {A} (o : Outcome A) : M A := fun w => (o, w).

Section Extractor.
(** [BeautifulSoup(html, 'html.parser')]: the tree or an exception. *)
Variable BeautifulSoup : string -> Outcome PageElement.

Definition parse_news (html : string) : M (list news) :=
  let news_list := [] in
  try_except
    (soup <- lift (BeautifulSoup html) ;;
     ret (parse_items (select_h3_c_title soup) news_list))
    is_Exception
    (fun e =>
       print (ParseFailed e) ;;;
       ret []).
End Extractor.

(** ** The page task *)

(** The URL of line 108. *)
Definition page_url (page : Z) (base_url : string) : string :=
  if page =? 1 then base_url
  else base_url +:+ "page/" +:+ str_of_int page +:+ "/".

Section PageTask.
Variable http : nat -> string -> Outcome Response.
Variable BeautifulSoup : string -> Outcome PageElement.

Definition fetch_and_parse_page (page : Z) (base_url : string)
    : M (list news) :=
  let url := page_url page base_url in
  html <- fetch_html http url default_max_retries default_retry_delay ;;
  match html with
  | Some body =>
      if str_truthy body then parse_news BeautifulSoup body else ret []
  | None => ret []
  end.
End PageTask.

(** ** Presenter and input collector *)

(** The loop of [display_news]; [i] is the index [enumerate] hands out. *)
Fixpoint display_entries (i : Z) (news_list : list news) : M unit :=
  match news_list with
  | [] => ret tt
  | (title, link) :: rest =>
      print (NumberedTitle i title) ;;;
      print (LinkLine link) ;;;
      print Separator ;;;
      display_entries (i + 1) rest
  end.

Definition display_news (news_list : list news) : M unit :=
  match news_list with
  | [] => print NothingMatches
  | _ :: _ =>
      print Separator ;;;
      display_entries 1 news_list
  end.

(** [input(...) or None] on the line the operator typed. *)
Definition get_user_input (line : string) : option string :=
  if str_truthy line then Some line else None.

(** ** The orchestrator *)

Definition NEWS_URL_CONSTANT : string :=
  "https://www.artnews.com/c/art-news/market/".
Definition NEWS_URL_1 : string := "https://www.artnews.com/art-news/market/".
Definition START_PAGE : Z := 2.
Definition END_PAGE : Z := 100.

(** The list built at lines 120-124, for any page bounds and base URLs. *)
Definition worklist (start_page end_page : Z) (url_a url_b : string)
    : list (Z * string) :=
  ((fun page => (page, url_a)) <$> range start_page (end_page + 1))
  ++ ((fun page => (page, url_b)) <$> range start_page (end_page + 1)).

Definition urls_to_fetch : list (Z * string) :=
  worklist START_PAGE END_PAGE NEWS_URL_CONSTANT NEWS_URL_1.

(** A future is named by its position in the order of submission;
    [future_to_url] maps it to the pair it was submitted with. *)
Definition submit_all (tasks : list (Z * string)) : gmap nat (Z * string) :=
  map_seq 0 tasks.

Section Orchestrator.
(** [result f] is what [future.result()] gives for the future [f]: the
    list the page task returned, or the exception it raised. *)
Variable result : nat -> Outcome (list news).

(** The loop over [as_completed(future_to_url)]; [completed] lists the
    futures in the order in which they complete. *)
Fixpoint collect (future_to_url : gmap nat (Z * string))
    (completed : list nat) (all_news : list news) (pbar : Z)
    : M (list news * Z) :=
  match completed with
  | [] => ret (all_news, pbar)
  | future :: rest =>
      match future_to_url !! future with
      | None => raise (OtherException "KeyError")
      | Some (page, base_url) =>
          all_news' <-
            try_except
              (news_list <- lift (result future) ;;
               ret (all_news ++ news_list))
              is_Exception
              (fun exc =>
                 print (TaskFailed page exc) ;;;
                 ret all_news) ;;
          collect future_to_url rest all_news' (pbar + 1)
      end
  end.
End Orchestrator.

(** What the futures hold once the pool has run them:
    [executor.submit(fetch_and_parse_page, page, base_url)] runs the page
    task of each pair in a worker thread, where the task of future [f]
    sees the network as [http f].  The console lines of the workers are
    not kept. *)
Definition submitted_results
    (http : nat -> nat -> string -> Outcome Response)
    (BeautifulSoup : string -> Outcome PageElement)
    (tasks : list (Z * string)) (future : nat) : Outcome (list news) :=
  match tasks !! future with
  | Some (page, base_url) =>
      fst (fetch_and_parse_page (http future) BeautifulSoup page base_url
             empty_world)
  | None => Raise (OtherException "no such future")
  end.

Section Main.
Variable lower : string -> string.

(** The body of [main] for the results [result] of the futures, the
    line typed at the prompt and a completion order.  The value is the
    pair of [all_news] and the progress count. *)
Definition main_with (result : nat -> Outcome (list news))
    (tasks : list (Z * string)) (line : string)
    (completed : list nat) : M (list news * Z) :=
  let keyword := get_user_input line in
  let all_news := [] in
  let future_to_url := submit_all tasks in
  done <- collect result future_to_url completed all_news 0 ;;
  let all_news := fst done in
  (match all_news with
   | _ :: _ =>
       let filtered_news := filter_news_by_keyword lower all_news keyword in
       display_news filtered_news
   | [] => print NoArticles
   end) ;;;
  ret done.

Definition main (http : nat -> nat -> string -> Outcome Response)
    (BeautifulSoup : string -> Outcome PageElement)
    : string -> list nat -> M (list news * Z) :=
  main_with (submitted_results http BeautifulSoup urls_to_fetch)
            urls_to_fetch.
End Main.

(** What a finished future contributes to [all_news]. *)
Definition contribution (o : Outcome (list news)) : list news :=
  match o with
  | Return news_list => news_list
  | Raise _ => []
  end.

(** The entries gathered from the futures of a completion order. *)
Definition gathered (result : nat -> Outcome (list news))
    (completed : list nat) : list news :=
  flat_map (fun future => contribution (result future)) completed.

(** ** Sample data *)

(** Four finished futures that each hold the same two entries. *)
Definition two_per_page : nat -> Outcome (list news) :=
  fun _ => Return [("Art fair", "/y"); ("Auction", "/b")].

Definition sample_news : list news :=
  [("Art fair opens", "/a"); ("Auction", "/b"); ("Smart money", "/c")].

(** Two listing pages, as text and as the tree [html.parser] builds:
    one container whose link has no text, one whose link has a title. *)
Definition untitled_html : string :=
  "<h3 class='c-title'><a class='c-title__link' href='/x'></a></h3>".

Definition untitled_page : PageElement :=
  Tag "[document]" [] ∅
    [Tag "h3" ["c-title"] ∅
       [Tag "a" ["c-title__link"] {["href" := "/x"]} []]].

Definition titled_html : string :=
  "<h3 class='c-title'><a class='c-title__link' href='/y'> Art fair </a></h3>".

Definition titled_page : PageElement :=
  Tag "[document]" [] ∅
    [Tag "h3" ["c-title"] ∅
       [Tag "a" ["c-title__link"] {["href" := "/y"]}
          [NavigableString PlainText " Art fair "]]].

(** A stand-in for the tree builder that knows the two sample pages and
    rejects any other text. *)
Definition sample_parser (html : string) : Outcome PageElement :=
  if String.eqb html untitled_html then Return untitled_page
  else if String.eqb html titled_html then Return titled_page
  else Raise (OtherException "not a sample page").

(** An HTTP client that never gets through. *)
Definition http_down : nat -> string -> Outcome Response :=
  fun _ _ => Raise (RequestException "connection refused").

(** An HTTP client that answers every request with a fixed body. *)
Definition http_serving (body : string) : nat -> string -> Outcome Response :=
  fun _ _ => Return {| status_code := 200; text := body |}.

(** An HTTP client that fails before it sends anything, with an error
    that is not a [RequestException] (a CA bundle that cannot be read is
    reported as an [OSError]). *)
Definition http_misconfigured : nat -> string -> Outcome Response :=
  fun _ _ => Raise (OtherException "OSError: invalid CA bundle path").

(** ** What a run leaves behind *)

(** The exception the handler of [fetch_html] is given for a failed
    attempt: the one the request raised, or the [HTTPError] of the
    response. *)
Definition caught (o : Outcome Response) : PyExc :=
  match o with
  | Return r => HTTPError (status_code r)
  | Raise e => e
  end.

(** The pauses after the failed attempts numbered [attempts]. *)
Definition retry_delays (max_retries retry_delay : Z) (attempts : list Z)
    : list Z :=
  flat_map
    (fun attempt => if attempt <? max_retries - 1 then [retry_delay] else [])
    attempts.

(** The console lines of the failed attempts numbered [attempts], the
    first of which is the request number [first] of the world. *)
Definition failure_lines (http : nat -> string -> Outcome Response)
    (url : string) (max_retries : Z) (first : nat) (attempts : list Z)
    : list Message :=
  imap
    (fun i attempt =>
       AttemptFailed url (attempt + 1) max_retries
         (caught (http (first + i)%nat url)))
    attempts.

(** The world after the attempts numbered [attempts] have all failed. *)
Definition after_failures (http : nat -> string -> Outcome Response)
    (url : string) (max_retries retry_delay : Z) (attempts : list Z)
    (w : World) : World :=
  {| requested := requested w ++ replicate (length attempts) url;
     slept := slept w ++ retry_delays max_retries retry_delay attempts;
     stdout :=
       stdout w
       ++ failure_lines http url max_retries (length (requested w)) attempts |}.

(** The three lines [display_news] prints for the entry at position [i],
    counted from 0. *)
Definition entry_lines (i : nat) (entry : news) : list Message :=
  [NumberedTitle (Z.of_nat i + 1) (fst entry); LinkLine (snd entry);
   Separator].

(** The lines the loop of [main] prints for the futures that raised. *)
Definition task_failure_lines (result : nat -> Outcome (list news))
    (tasks : list (Z * string)) (completed : list nat) : list Message :=
  flat_map
    (fun future =>
       match tasks !! future, result future with
       | Some (page, _), Raise exc => [TaskFailed page exc]
       | _, _ => []
       end)
    completed.

(** Everything [display_news] prints for a list. *)
Definition shown (news_list : list news) : list Message :=
  match news_list with
  | [] => [NothingMatches]
  | _ :: _ => Separator :: concat (imap entry_lines news_list)
  end.

(** A title is clean at its start when it does not begin with white
    space. *)
Definition starts_clean (s : string) : Prop :=
  match s with
  | EmptyString => True
  | String c _ => chr_isspace c = false
  end.

(** The elements of [l] at the positions where [keep] says [true]. *)
Fixpoint keep_positions {A} (keep : list bool) (l : list A) : list A :=
  match keep, l with
  | b :: keep', x :: l' =>
      if b then x :: keep_positions keep' l' else keep_positions keep' l'
  | _, _ => []
  end.

(** [sample_news] with the titles in upper case. *)
Definition sample_news_upper : list news :=
  [("ART FAIR OPENS", "/a"); ("AUCTION", "/b"); ("SMART MONEY", "/c")].

(** Four finished futures of which the second one raised. *)
Definition one_task_raises : nat -> Outcome (list news) :=
  fun future =>
    if (future =? 1)%nat then Raise (OtherException "boom")
    else two_per_page future.


(** An HTTP client that gets through at the third request. *)
Definition http_third_time (body : string)
    : nat -> string -> Outcome Response :=
  fun n _ =>
    match n with
    | 0%nat => Raise (RequestException "timed out")
    | 1%nat => Return {| status_code := 503; text := "busy" |}
    | _ => Return {| status_code := 200; text := body |}
    end.

(** ** Properties of the string operations *)

Lemma append_nil_l (s : string) : "" +:+ s = s.
Proof. reflexivity. Qed.

Lemma append_cons (c : ascii) (s t : string) :
  String c s +:+ t = String c (s +:+ t).
Proof. reflexivity. Qed.

Lemma str_startswith_spec (p s : string) :
  str_startswith p s = true <-> exists post, s = p +:+ post.
Proof.
  revert s; induction p as [|c p IH]; intros s.
  - split; [intros _; exists s; reflexivity | intros _; destruct s; reflexivity].
  - destruct s as [|d s]; simpl.
    + split; [discriminate | intros [post H]; discriminate].
    + rewrite andb_true_iff, Ascii.eqb_eq, IH. split.
      * intros [-> [post ->]]. exists post. reflexivity.
      * intros [post H]. rewrite append_cons in H. injection H as -> ->. eauto.
Qed.

Lemma str_in_spec (needle hay : string) :
  str_in needle hay = true <-> Substring needle hay.
Proof.
  unfold Substring. induction hay as [|c hay IH]; simpl;
    rewrite orb_true_iff, str_startswith_spec.
  - split.
    + intros [[post H]|H]; [|discriminate]. exists "", post. exact H.
    + intros (pre & post & H). left.
      destruct pre; [eauto | rewrite append_cons in H; discriminate].
  - rewrite IH. split.
    + intros [[post H]|(pre & post & H)].
      * exists "", post. exact H.
      * exists (String c pre), post. rewrite append_cons. now rewrite H.
    + intros (pre & post & H). destruct pre as [|d pre].
      * left. eauto.
      * right. rewrite append_cons in H. injection H as _ H. eauto.
Qed.

Example str_in_inside : str_in "art" "smart money" = true.
Proof. reflexivity. Qed.

Example str_in_absent : str_in "art" "auction" = false.
Proof. reflexivity. Qed.

Example latin1_lower_mixed : latin1_lower "Art FAIR 2024" = "art fair 2024".
Proof. reflexivity. Qed.

Example str_strip_both_ends :
  str_strip (String (ascii_of_N 10) "  Art fair  ") = "Art fair".
Proof. reflexivity. Qed.

Example str_of_int_negative : str_of_int (-12) = "-12".
Proof. reflexivity. Qed.

(** ** The keyword filter *)

Lemma filter_idem {A} (f : A -> bool) (l : list A) :
  List.filter f (List.filter f l) = List.filter f l.
Proof.
  induction l as [|x l IH]; simpl; [reflexivity|].
  destruct (f x) eqn:Hx; simpl; [rewrite Hx, IH|]; auto.
Qed.

Lemma filter_sublist {A} (f : A -> bool) (l : list A) :
  sublist (List.filter f l) l.
Proof.
  induction l as [|x l IH]; simpl; [constructor|].
  destruct (f x); now constructor.
Qed.

Lemma str_truthy_nonempty (s : string) : s <> "" -> str_truthy s = true.
Proof. destruct s; [congruence | reflexivity]. Qed.

Section FilterProperties.
Variable lower : string -> string.

Lemma filter_some (k : string) (L : list news) :
  k <> "" ->
  filter_news_by_keyword lower L (Some k)
  = List.filter (fun e => str_in (lower k) (lower (fst e))) L.
Proof.
  intros Hk. unfold filter_news_by_keyword.
  now rewrite (str_truthy_nonempty k Hk).
Qed.

(** C5: without a keyword ([None] or the empty string) the filter
    returns the list it was given. *)
Theorem filter_without_keyword (L : list news) :
  filter_news_by_keyword lower L None = L
  /\ filter_news_by_keyword lower L (Some "") = L.
Proof. split; reflexivity. Qed.

(** C6: with a non-empty keyword [k] the result is a subsequence of [L]
    in the original order, and it holds exactly the entries whose
    lower-cased title contains the lower-cased [k]: an entry is in the
    result iff it is in [L] and matches, and the filter keeps a
    matching occurrence and drops any other one wherever it stands. *)
Theorem filter_with_keyword (k : string) (L : list news) :
  k <> "" ->
  sublist (filter_news_by_keyword lower L (Some k)) L
  /\ (forall e : news,
        In e (filter_news_by_keyword lower L (Some k))
        <-> In e L /\ matches lower k e)
  /\ (forall (l1 l2 : list news) (e : news),
        L = l1 ++ e :: l2 ->
        (matches lower k e ->
         filter_news_by_keyword lower L (Some k)
         = filter_news_by_keyword lower l1 (Some k)
           ++ e :: filter_news_by_keyword lower l2 (Some k))
        /\ (~ matches lower k e ->
            filter_news_by_keyword lower L (Some k)
            = filter_news_by_keyword lower l1 (Some k)
              ++ filter_news_by_keyword lower l2 (Some k))).
Proof.
  intros Hk. rewrite !filter_some by assumption. split; [|split].
  - apply filter_sublist.
  - intros e. rewrite filter_In, str_in_spec. reflexivity.
  - intros l1 l2 e ->. rewrite !filter_some by assumption.
    rewrite List.filter_app. simpl. unfold matches.
    rewrite <- str_in_spec.
    destruct (str_in (lower k) (lower (fst e))); split; intros H;
      try reflexivity; congruence.
Qed.

(** C10: filtering twice with the same keyword, absent or empty or
    not, gives what filtering once gives. *)
Theorem filter_idempotent (k : option string) (L : list news) :
  filter_news_by_keyword lower (filter_news_by_keyword lower L k) k
  = filter_news_by_keyword lower L k.
Proof.
  destruct k as [kw|]; [|reflexivity]. unfold filter_news_by_keyword.
  destruct (str_truthy kw); simpl; [apply filter_idem | reflexivity].
Qed.
End FilterProperties.

(** The keyword "ART" on three entries. *)
Lemma filter_with_keyword_witness :
  "ART" <> ""
  /\ sublist (filter_news_by_keyword latin1_lower sample_news (Some "ART"))
             sample_news.
Proof.
  split; [discriminate|].
  apply (filter_with_keyword latin1_lower "ART" sample_news). discriminate.
Defined.

Example filter_sample :
  filter_news_by_keyword latin1_lower sample_news (Some "ART")
  = [("Art fair opens", "/a"); ("Smart money", "/c")].
Proof. reflexivity. Qed.

(** ** The worklist *)

Lemma elem_of_range (start stop k : Z) :
  k ∈ range start stop <-> start <= k < stop.
Proof. unfold range. rewrite elem_of_seqZ. lia. Qed.

Lemma length_range (start stop : Z) :
  length (range start stop) = Z.to_nat (stop - start).
Proof. apply length_seqZ. Qed.

Lemma elem_of_worklist (start_page end_page : Z) (url_a url_b : string)
    (page : Z) (base_url : string) :
  (page, base_url) ∈ worklist start_page end_page url_a url_b
  <-> start_page <= page <= end_page
      /\ (base_url = url_a \/ base_url = url_b).
Proof.
  unfold worklist. rewrite elem_of_app, !list_elem_of_fmap. split.
  - intros [[p [[= -> ->] Hp]]|[p [[= -> ->] Hp]]];
      apply elem_of_range in Hp; split; auto; lia.
  - intros [Hp [->| ->]]; [left|right]; exists page;
      (split; [reflexivity | apply elem_of_range; lia]).
Qed.

Lemma NoDup_worklist (start_page end_page : Z) (url_a url_b : string) :
  url_a <> url_b -> NoDup (worklist start_page end_page url_a url_b).
Proof.
  intros Hne. unfold worklist. apply NoDup_app. split; [|split].
  - apply NoDup_fmap_2; [intros x y [= ->]; reflexivity | apply NoDup_seqZ].
  - intros [p u] [x [[= -> ->] _]]%list_elem_of_fmap
                 [y [[= _ Hu] _]]%list_elem_of_fmap.
    contradiction.
  - apply NoDup_fmap_2; [intros x y [= ->]; reflexivity | apply NoDup_seqZ].
Qed.

Lemma length_worklist (start_page end_page : Z) (url_a url_b : string) :
  length (worklist start_page end_page url_a url_b)
  = (2 * Z.to_nat (end_page + 1 - start_page))%nat.
Proof.
  unfold worklist. rewrite length_app, !length_fmap, length_range. lia.
Qed.

(** C9: with the constants of the script the worklist has 198 tasks, no
    task occurs twice, and the tasks are exactly the pairs of a page in
    [2, 100] with one of the two base URLs: first every page with
    [NEWS_URL_CONSTANT], then every page with [NEWS_URL_1]. *)
Theorem urls_to_fetch_cross_product :
  length urls_to_fetch = 198%nat
  /\ NoDup urls_to_fetch
  /\ (forall (page : Z) (base_url : string),
        (page, base_url) ∈ urls_to_fetch
        <-> 2 <= page <= 100
            /\ (base_url = NEWS_URL_CONSTANT \/ base_url = NEWS_URL_1))
  /\ urls_to_fetch
     = ((fun page => (page, NEWS_URL_CONSTANT)) <$> seqZ 2 99)
       ++ ((fun page => (page, NEWS_URL_1)) <$> seqZ 2 99).
Proof.
  split; [|split; [|split]].
  - unfold urls_to_fetch. rewrite length_worklist. reflexivity.
  - apply NoDup_worklist. discriminate.
  - intros page base_url. apply elem_of_worklist.
  - reflexivity.
Qed.

(** ** The fetcher *)

Section FetcherProperties.
Variable http : nat -> string -> Outcome Response.
Variables (url : string) (max_retries retry_delay : Z).

(** A successful attempt leaves the function with the body. *)
Lemma fetch_html_attempt_succeeds (attempt : Z) (w : World) (body : string) :
  attempt_succeeds (http (length (requested w)) url) = Some body ->
  fetch_html_attempt http url max_retries retry_delay attempt w
  = (Return (ReturnValue (Some body)),
     {| requested := requested w ++ [url]; slept := slept w;
        stdout := stdout w |}).
Proof.
  unfold attempt_succeeds, fetch_html_attempt, try_except, bind,
    requests_get, raise_for_status, ret, raise.
  destruct (http _ url) as [r|e]; [|discriminate].
  destruct (_ && _); [discriminate|]. now intros [= <-].
Qed.

(** Whatever happens, an attempt issues one request, to [url]. *)
Lemma fetch_html_attempt_requests (attempt : Z) (w : World) :
  requested
    (snd (fetch_html_attempt http url max_retries retry_delay attempt w))
  = requested w ++ [url].
Proof.
  unfold fetch_html_attempt, try_except, bind, requests_get,
    raise_for_status, ret, raise, print, sleep.
  destruct (http _ url) as [r|e]; simpl.
  - destruct (_ && _); simpl; [|reflexivity].
    destruct (attempt <? max_retries - 1); [|reflexivity].
    destruct (sleep_accepts retry_delay); reflexivity.
  - destruct (is_RequestException e); simpl; [|reflexivity].
    destruct (attempt <? max_retries - 1); [|reflexivity].
    destruct (sleep_accepts retry_delay); reflexivity.
Qed.

Lemma replicate_snoc (k : nat) (l : list string) :
  (l ++ [url]) ++ replicate k url = l ++ replicate (S k) url.
Proof. rewrite <- app_assoc. reflexivity. Qed.

Lemma fetch_html_loop_requests (attempts : list Z) (w : World) :
  exists k : nat,
    (Nat.min 1 (length attempts) <= k <= length attempts)%nat
    /\ requested
         (snd (fetch_html_loop http url max_retries retry_delay attempts w))
       = requested w ++ replicate k url.
Proof.
  revert w; induction attempts as [|attempt rest IH]; intros w.
  - exists 0%nat. split; [simpl; lia|]. simpl. now rewrite app_nil_r.
  - simpl. unfold bind at 1.
    pose proof (fetch_html_attempt_requests attempt w) as Hreq.
    destruct (fetch_html_attempt _ _ _ _ attempt w) as [[[v|]|e] w1];
      simpl in Hreq |- *.
    + exists 1%nat. split; [simpl; lia | exact Hreq].
    + destruct (IH w1) as (k & Hk & Hw). exists (S k).
      split; [simpl; lia|]. now rewrite Hw, Hreq, replicate_snoc.
    + exists 1%nat. split; [simpl; lia | exact Hreq].
Qed.

End FetcherProperties.


(** With a delay that [time.sleep] takes. *)
Section FetcherValidDelay.
Variable http : nat -> string -> Outcome Response.
Variables (url : string) (max_retries retry_delay : Z).
Hypothesis Hdelay : sleep_accepts retry_delay = true.

(** A failed attempt is reported and the loop goes on. *)
Lemma fetch_html_attempt_fails (attempt : Z) (w : World) :
  attempt_fails (http (length (requested w)) url) = true ->
  exists w',
    fetch_html_attempt http url max_retries retry_delay attempt w
    = (Return NextIteration, w')
    /\ requested w' = requested w ++ [url].
Proof.
  unfold attempt_fails, fetch_html_attempt, try_except, bind,
    requests_get, raise_for_status, ret, raise, print, sleep.
  rewrite Hdelay.
  destruct (http _ url) as [r|e]; intros H; simpl; rewrite H; simpl;
    destruct (attempt <? max_retries - 1); eauto.
Qed.

Lemma fetch_html_loop_all_fail (attempts : list Z) (w : World) :
  (forall i : nat,
      (i < length attempts)%nat ->
      attempt_fails (http (length (requested w) + i)%nat url) = true) ->
  let run := fetch_html_loop http url max_retries retry_delay attempts w in
  fst run = Return None
  /\ requested (snd run) = requested w ++ replicate (length attempts) url.
Proof.
  revert w; induction attempts as [|attempt rest IH]; intros w Hfail.
  - simpl. now rewrite app_nil_r.
  - cbv zeta. simpl. unfold bind.
    destruct (fetch_html_attempt_fails attempt w) as (w1 & -> & Hreq).
    { rewrite <- (Nat.add_0_r (length _)). apply Hfail. simpl. lia. }
    destruct (IH w1) as [Hres Hw]; cbv zeta.
    { intros i Hi. rewrite Hreq, length_app. simpl.
      replace (length (requested w) + 1 + i)%nat
        with (length (requested w) + S i)%nat by lia.
      apply Hfail. simpl. lia. }
    split; [exact Hres|]. now rewrite Hw, Hreq, replicate_snoc.
Qed.

(** Only an exception that is no [RequestException] leaves an
    attempt, and it is the one the request raised. *)
Lemma fetch_html_attempt_raises (attempt : Z) (w w' : World) (e : PyExc) :
  fetch_html_attempt http url max_retries retry_delay attempt w
  = (Raise e, w') ->
  http (length (requested w)) url = Raise e
  /\ is_RequestException e = false.
Proof.
  unfold fetch_html_attempt, try_except, bind, requests_get,
    raise_for_status, ret, raise, print, sleep.
  rewrite Hdelay.
  destruct (http _ url) as [r|e0]; simpl.
  - destruct (_ && _); simpl; [|discriminate].
    destruct (attempt <? max_retries - 1); discriminate.
  - destruct (is_RequestException e0) eqn:He0; simpl.
    + destruct (attempt <? max_retries - 1); discriminate.
    + intros [= <- _]. auto.
Qed.

Lemma fetch_html_loop_raises (attempts : list Z) (w : World) (e : PyExc) :
  fst (fetch_html_loop http url max_retries retry_delay attempts w)
  = Raise e ->
  (exists n : nat, http n url = Raise e) /\ is_RequestException e = false.
Proof.
  revert w; induction attempts as [|attempt rest IH]; intros w.
  - discriminate.
  - simpl. unfold bind at 1.
    destruct (fetch_html_attempt _ _ _ _ attempt w) as [[[v|]|e0] w1] eqn:Hrun;
      simpl.
    + discriminate.
    + apply IH.
    + intros [= ->]. apply fetch_html_attempt_raises in Hrun as [Hn He].
      eauto.
Qed.

End FetcherValidDelay.



Example fetch_html_down :
  fetch_html http_down "https://x/" default_max_retries default_retry_delay
    empty_world
  = (Return None,
     {| requested := ["https://x/"; "https://x/"; "https://x/"];
        slept := [2; 2];
        stdout :=
          [AttemptFailed "https://x/" 1 3 (RequestException "connection refused");
           AttemptFailed "https://x/" 2 3 (RequestException "connection refused");
           AttemptFailed "https://x/" 3 3 (RequestException "connection refused");
           RetriesExhausted "https://x/"] |}).
Proof. reflexivity. Qed.

(** A negative delay: [time.sleep] raises in the handler of the first
    failed attempt. *)
Example fetch_html_negative_delay :
  fetch_html http_down "https://x/" default_max_retries (-1) empty_world
  = (Raise (OtherException "ValueError: sleep length must be non-negative"),
     {| requested := ["https://x/"]; slept := [];
        stdout :=
          [AttemptFailed "https://x/" 1 3
             (RequestException "connection refused")] |}).
Proof. reflexivity. Qed.

Example fetch_html_huge_delay :
  fst (fetch_html http_down "https://x/" default_max_retries (2 ^ 64)
         empty_world)
  = Raise (OtherException "OverflowError: timestamp too large to convert").
Proof. reflexivity. Qed.

(** With a single attempt there is no pause, whatever the delay. *)
Example fetch_html_negative_delay_single :
  fst (fetch_html http_down "https://x/" 1 (-1) empty_world) = Return None.
Proof. reflexivity. Qed.

Example fetch_html_first_try :
  fetch_html (http_serving "<html></html>") "https://x/" default_max_retries
    default_retry_delay empty_world
  = (Return (Some "<html></html>"),
     {| requested := ["https://x/"]; slept := []; stdout := [] |}).
Proof. reflexivity. Qed.

(** ** The extractor *)

Lemma parse_items_spec (items : list PageElement) (news_list : list news) :
  parse_items items news_list = news_list ++ omap entry_of items.
Proof.
  revert news_list; induction items as [|item rest IH]; intros news_list.
  - simpl. now rewrite app_nil_r.
  - simpl. unfold entry_of.
    destruct (find_a_c_title_link item) as [a_tag|]; [|apply IH].
    destruct (tag_attrs a_tag !! "href") as [link|]; [|apply IH].
    rewrite IH, <- app_assoc. reflexivity.
Qed.

Lemma parse_news_run (BeautifulSoup : string -> Outcome PageElement)
    (html : string) (w : World) :
  parse_news BeautifulSoup html w
  = match BeautifulSoup html with
    | Return soup => (Return (parse_items (select_h3_c_title soup) []), w)
    | Raise e =>
        (Return [],
         {| requested := requested w; slept := slept w;
            stdout := stdout w ++ [ParseFailed e] |})
    end.
Proof.
  unfold parse_news, try_except, bind, lift, ret, print.
  destruct (BeautifulSoup html); reflexivity.
Qed.

(** C7: when the tree builder raises, [parse_news] reports the exception
    on the console and returns the empty list; on every input it returns
    a list and raises nothing. *)
Theorem parse_news_never_raises
    (BeautifulSoup : string -> Outcome PageElement) (html : string)
    (w : World) :
  (exists news_list : list news,
      fst (parse_news BeautifulSoup html w) = Return news_list)
  /\ match BeautifulSoup html with
     | Raise e =>
         parse_news BeautifulSoup html w
         = (Return [],
            {| requested := requested w; slept := slept w;
               stdout := stdout w ++ [ParseFailed e] |})
     | Return soup =>
         parse_news BeautifulSoup html w
         = (Return (parse_items (select_h3_c_title soup) []), w)
     end.
Proof.
  rewrite parse_news_run. destruct (BeautifulSoup html); eauto.
Qed.

Example parse_news_rejected :
  parse_news sample_parser "<h3" empty_world
  = (Return [],
     {| requested := []; slept := [];
        stdout := [ParseFailed (OtherException "not a sample page")] |}).
Proof. reflexivity. Qed.

Example parse_news_titled :
  parse_news sample_parser titled_html empty_world
  = (Return [("Art fair", "/y")], empty_world).
Proof. vm_compute. reflexivity. Qed.

(** *** Titles *)

Lemma str_truthy_spec (s : string) : str_truthy s = true <-> s <> "".
Proof. destruct s; simpl; split; congruence. Qed.

Lemma str_lstrip_all_space (s : string) :
  str_all_space (str_lstrip s) = str_all_space s.
Proof.
  induction s as [|c s IH]; simpl; [reflexivity|].
  destruct (chr_isspace c) eqn:Hc; simpl; [exact IH | now rewrite Hc].
Qed.

Lemma str_rstrip_empty (s : string) :
  str_rstrip s = "" <-> str_all_space s = true.
Proof.
  induction s as [|c s IH]; simpl; [tauto|].
  destruct (str_rstrip s) as [|d r].
  - destruct IH as [IH _]. rewrite IH by reflexivity.
    destruct (chr_isspace c); simpl; split; congruence.
  - destruct (str_all_space s).
    + destruct IH as [_ IH]. discriminate IH. reflexivity.
    + rewrite andb_false_r. split; discriminate.
Qed.

Lemma str_strip_empty (s : string) :
  str_strip s = "" <-> str_all_space s = true.
Proof.
  unfold str_strip. now rewrite str_rstrip_empty, str_lstrip_all_space.
Qed.

Lemma join_empty (l : list string) :
  fold_right String.append "" l = "" -> forall x, In x l -> x = "".
Proof.
  induction l as [|y l IH]; simpl; [tauto|].
  intros H x [<-|Hx].
  - destruct y; [reflexivity | discriminate].
  - apply IH; [|exact Hx]. destruct y; [exact H | discriminate].
Qed.

Lemma in_stripped_strings (e : PageElement) (x : string) :
  In x (stripped_strings e)
  <-> exists (kind : StringKind) (s : string),
        In (NavigableString kind s) (descendants e)
        /\ (kind = PlainText \/ kind = CData)
        /\ str_all_space s = false /\ x = str_strip s.
Proof.
  assert (Hstrip : forall s, str_truthy (str_strip s) = true
                             <-> str_all_space s = false).
  { intros s. rewrite str_truthy_spec, str_strip_empty.
    destruct (str_all_space s); split; congruence. }
  unfold stripped_strings. rewrite in_flat_map. split.
  - intros (d & Hd & Hx). destruct d as [kind s|]; [|destruct Hx].
    destruct kind; try destruct Hx;
      (destruct (str_truthy (str_strip s)) eqn:Ht; [|destruct Hx]);
      destruct Hx as [<-|[]]; apply Hstrip in Ht; eauto 10.
  - intros (kind & s & Hd & Hk & Hs & ->).
    exists (NavigableString kind s). split; [exact Hd|].
    apply Hstrip in Hs. destruct Hk as [->| ->]; rewrite Hs; now left.
Qed.

Lemma get_text_strip_nonempty (e : PageElement) :
  get_text_strip e <> ""
  <-> exists (kind : StringKind) (s : string),
        In (NavigableString kind s) (descendants e)
        /\ (kind = PlainText \/ kind = CData)
        /\ str_all_space s = false.
Proof.
  unfold get_text_strip. split.
  - intros Hne. destruct (stripped_strings e) as [|x l] eqn:Hl.
    { now contradiction Hne. }
    assert (Hx : In x (stripped_strings e)) by (rewrite Hl; now left).
    apply in_stripped_strings in Hx as (kind & s & ? & ? & ? & _). eauto.
  - intros (kind & s & Hd & Hk & Hs) Hempty.
    assert (Hx : In (str_strip s) (stripped_strings e)).
    { apply in_stripped_strings. eauto 10. }
    apply (join_empty _ Hempty) in Hx. apply str_strip_empty in Hx.
    congruence.
Qed.

(** C8, as the code has it: every pair [parse_news] returns comes from a
    selected container whose first [a.c-title__link] descendant has an
    [href]; the link is that attribute and the title is the stripped text
    of that element, which is non-empty exactly when the element holds a
    text node with a character that is not white space. *)
Theorem parse_news_titles (BeautifulSoup : string -> Outcome PageElement)
    (html : string) (w : World) (title link : string) :
  In (title, link) (contribution (fst (parse_news BeautifulSoup html w))) ->
  exists soup item a_tag : PageElement,
    BeautifulSoup html = Return soup
    /\ In item (select_h3_c_title soup)
    /\ find_a_c_title_link item = Some a_tag
    /\ tag_attrs a_tag !! "href" = Some link
    /\ title = get_text_strip a_tag
    /\ (title <> ""
        <-> exists (kind : StringKind) (s : string),
              In (NavigableString kind s) (descendants a_tag)
              /\ (kind = PlainText \/ kind = CData)
              /\ str_all_space s = false).
Proof.
  rewrite parse_news_run.
  destruct (BeautifulSoup html) as [soup|e]; simpl; [|tauto].
  rewrite parse_items_spec. simpl.
  rewrite <- list_elem_of_In, list_elem_of_omap.
  intros (item & Hitem & Hentry). apply list_elem_of_In in Hitem.
  unfold entry_of in Hentry.
  destruct (find_a_c_title_link item) as [a_tag|] eqn:Hfind; [|discriminate].
  destruct (tag_attrs a_tag !! "href") as [href|] eqn:Hhref; [|discriminate].
  injection Hentry as <- <-.
  exists soup, item, a_tag.
  repeat split; auto; apply get_text_strip_nonempty.
Qed.

(** The sample page whose link has a title. *)
Lemma parse_news_titles_witness :
  In ("Art fair", "/y")
     (contribution (fst (parse_news sample_parser titled_html empty_world)))
  /\ exists soup item a_tag : PageElement,
       sample_parser titled_html = Return soup
       /\ In item (select_h3_c_title soup)
       /\ find_a_c_title_link item = Some a_tag
       /\ "Art fair" = get_text_strip a_tag.
Proof.
  assert (H : In ("Art fair", "/y")
                (contribution
                   (fst (parse_news sample_parser titled_html empty_world)))).
  { vm_compute. left. reflexivity. }
  split; [exact H|].
  destruct (parse_news_titles sample_parser titled_html empty_world
              "Art fair" "/y" H)
    as (soup & item & a_tag & Hsoup & Hitem & Hfind & _ & Htitle & _).
  exists soup, item, a_tag. auto.
Defined.

(** C8, as the spec has it, fails: a link element without text gives an
    entry whose title is empty. *)
Lemma parse_news_empty_title :
  parse_news sample_parser untitled_html empty_world
  = (Return [("", "/x")], empty_world)
  /\ ~ (forall (BeautifulSoup : string -> Outcome PageElement)
           (html : string) (w : World) (title link : string),
          In (title, link)
             (contribution (fst (parse_news BeautifulSoup html w))) ->
          title <> "").
Proof.
  assert (H : parse_news sample_parser untitled_html empty_world
              = (Return [("", "/x")], empty_world))
    by (vm_compute; reflexivity).
  split; [exact H|].
  intros Hall.
  apply (Hall sample_parser untitled_html empty_world "" "/x");
    [|reflexivity].
  rewrite H. left. reflexivity.
Qed.

(** ** The page task *)

Lemma str_of_int_roundtrip (n : Z) :
  option_map Z.of_int (NilZero.int_of_string (str_of_int n)) = Some n.
Proof.
  unfold str_of_int. rewrite NilZero.isi.
  - simpl. f_equal. apply DecimalZ.of_to.
  - destruct n as [|p|p]; simpl; try discriminate.
    intros [= H]. now apply DecimalPos.Unsigned.to_uint_nonnil in H.
  - destruct n as [|p|p]; simpl; try discriminate.
    intros [= H]. now apply DecimalPos.Unsigned.to_uint_nonnil in H.
Qed.

Section PageTaskProperties.
Variable http : nat -> string -> Outcome Response.
Variable BeautifulSoup : string -> Outcome PageElement.

Lemma parse_news_requested (html : string) (w : World) :
  requested (snd (parse_news BeautifulSoup html w)) = requested w.
Proof. rewrite parse_news_run. now destruct (BeautifulSoup html). Qed.

Lemma parse_news_returns (html : string) (w : World) :
  exists news_list : list news,
    fst (parse_news BeautifulSoup html w) = Return news_list.
Proof. rewrite parse_news_run. destruct (BeautifulSoup html); eauto. Qed.

(** The page task in terms of what [fetch_html] did. *)
Lemma fetch_and_parse_page_run (page : Z) (base_url : string) (w : World) :
  fetch_and_parse_page http BeautifulSoup page base_url w
  = match fetch_html http (page_url page base_url) default_max_retries
            default_retry_delay w with
    | (Return (Some body), w') =>
        if str_truthy body then parse_news BeautifulSoup body w'
        else (Return [], w')
    | (Return None, w') => (Return [], w')
    | (Raise e, w') => (Raise e, w')
    end.
Proof.
  unfold fetch_and_parse_page, bind.
  destruct (fetch_html _ _ _ _ w) as [[[body|]|e] w']; try reflexivity.
  destruct (str_truthy body); reflexivity.
Qed.

Lemma fetch_and_parse_page_requests (page : Z) (base_url : string)
    (w : World) :
  exists attempts : nat,
    (1 <= attempts <= 3)%nat
    /\ requested
         (snd (fetch_and_parse_page http BeautifulSoup page base_url w))
       = requested w ++ replicate attempts (page_url page base_url).
Proof.
  rewrite fetch_and_parse_page_run. unfold fetch_html.
  destruct (fetch_html_loop_requests http (page_url page base_url)
              default_max_retries default_retry_delay
              (range 0 default_max_retries) w) as (k & Hk & Hreq).
  exists k. split; [exact Hk|].
  destruct (fetch_html_loop _ _ _ _ _ w) as [[[body|]|e] w']; simpl in *;
    try exact Hreq.
  destruct (str_truthy body); [|exact Hreq].
  now rewrite parse_news_requested.
Qed.
End PageTaskProperties.

(** C3: the page task sends its requests, at least one and at most three,
    to one URL: the base URL itself for page 1, and the base URL followed
    by [page/], the decimal page number and [/] for any other page. *)
Theorem page_task_url (http : nat -> string -> Outcome Response)
    (BeautifulSoup : string -> Outcome PageElement)
    (page : Z) (base_url : string) (w : World) :
  page <> 1 ->
  page_url 1 base_url = base_url
  /\ page_url page base_url
     = base_url +:+ "page/" +:+ str_of_int page +:+ "/"
  /\ (exists attempts : nat,
        (1 <= attempts <= 3)%nat
        /\ requested
             (snd (fetch_and_parse_page http BeautifulSoup 1 base_url w))
           = requested w ++ replicate attempts base_url)
  /\ (exists attempts : nat,
        (1 <= attempts <= 3)%nat
        /\ requested
             (snd (fetch_and_parse_page http BeautifulSoup page base_url w))
           = requested w
             ++ replicate attempts
                  (base_url +:+ "page/" +:+ str_of_int page +:+ "/")).
Proof.
  intros Hpage.
  assert (Hurl : page_url page base_url
                 = base_url +:+ "page/" +:+ str_of_int page +:+ "/").
  { unfold page_url. destruct (Z.eqb_spec page 1); [contradiction|].
    reflexivity. }
  split; [reflexivity|]. split; [exact Hurl|]. split.
  - apply (fetch_and_parse_page_requests http BeautifulSoup 1 base_url w).
  - rewrite <- Hurl. apply fetch_and_parse_page_requests.
Qed.

(** Page 5 of the base URL [https://x/]. *)
Lemma page_task_url_witness :
  5 <> 1
  /\ page_url 1 "https://x/" = "https://x/"
  /\ page_url 5 "https://x/" = "https://x/page/5/".
Proof.
  split; [discriminate|].
  destruct (page_task_url http_down sample_parser 5 "https://x/" empty_world)
    as (Hone & Hfive & _); [discriminate|].
  split; [exact Hone | exact Hfive].
Defined.

Example page_task_requests :
  requested
    (snd (fetch_and_parse_page http_down sample_parser 5 "https://x/"
            empty_world))
  = ["https://x/page/5/"; "https://x/page/5/"; "https://x/page/5/"].
Proof. reflexivity. Qed.

(** C4, as the code has it: the page task returns the empty list when
    [fetch_html] returns [None] or an empty body, and what [parse_news]
    returns for any other body, a list in each case.  It raises only when
    [fetch_html] does, with an exception that some request raised and
    that is no [RequestException]; an HTTP client that raises nothing but
    [RequestException]s therefore always gets a list. *)
Theorem page_task_outcome (http : nat -> string -> Outcome Response)
    (BeautifulSoup : string -> Outcome PageElement)
    (page : Z) (base_url : string) (w : World) :
  let url := page_url page base_url in
  let fetched :=
    fetch_html http url default_max_retries default_retry_delay w in
  let run := fetch_and_parse_page http BeautifulSoup page base_url w in
  match fst fetched with
  | Return None => run = (Return [], snd fetched)
  | Return (Some body) =>
      run = (if str_truthy body
             then parse_news BeautifulSoup body (snd fetched)
             else (Return [], snd fetched))
      /\ exists news_list : list news, fst run = Return news_list
  | Raise e =>
      fst run = Raise e
      /\ is_RequestException e = false
      /\ exists n : nat, http n url = Raise e
  end
  /\ ((forall (n : nat) (e : PyExc),
          http n url = Raise e -> is_RequestException e = true) ->
      exists news_list : list news, fst run = Return news_list).
Proof.
  intros url fetched run. subst run. rewrite fetch_and_parse_page_run.
  fold url. fold fetched.
  assert (Hraise : forall e, fst fetched = Raise e ->
                     (exists n, http n url = Raise e)
                     /\ is_RequestException e = false)
    by (intros e; apply fetch_html_loop_raises; reflexivity).
  destruct fetched as [[[body|]|e] w']; simpl in *.
  - assert (Hlist : exists news_list : list news,
               fst (if str_truthy body
                    then parse_news BeautifulSoup body w'
                    else (Return [], w')) = Return news_list).
    { destruct (str_truthy body); [apply parse_news_returns | eauto]. }
    auto.
  - eauto.
  - destruct (Hraise e eq_refl) as [[n Hn] He]. split; [eauto|].
    intros Hall. rewrite (Hall n e Hn) in He. discriminate.
Qed.

(** A server that is down: the client raises [RequestException]s only,
    and the task returns a list. *)
Lemma page_task_outcome_witness :
  (forall (n : nat) (e : PyExc),
      http_down n (page_url 2 "https://x/") = Raise e ->
      is_RequestException e = true)
  /\ exists news_list : list news,
       fst (fetch_and_parse_page http_down sample_parser 2 "https://x/"
              empty_world)
       = Return news_list.
Proof.
  assert (H : forall (n : nat) (e : PyExc),
             http_down n (page_url 2 "https://x/") = Raise e ->
             is_RequestException e = true)
    by (intros n e [= <-]; reflexivity).
  split; [exact H|].
  exact (proj2 (page_task_outcome http_down sample_parser 2 "https://x/"
                  empty_world) H).
Defined.

(** C4, as the spec has it, fails: an exception of the HTTP client that
    is no [RequestException] passes through [fetch_html] and leaves the
    page task. *)
Lemma page_task_raises :
  fst (fetch_and_parse_page http_misconfigured sample_parser 2 "https://x/"
         empty_world)
  = Raise (OtherException "OSError: invalid CA bundle path")
  /\ ~ (forall (http : nat -> string -> Outcome Response)
          (BeautifulSoup : string -> Outcome PageElement)
          (page : Z) (base_url : string) (w : World),
         exists news_list : list news,
           fst (fetch_and_parse_page http BeautifulSoup page base_url w)
           = Return news_list).
Proof.
  split; [reflexivity|].
  intros Hall.
  destruct (Hall http_misconfigured sample_parser 2 "https://x/" empty_world)
    as [news_list H].
  discriminate H.
Qed.

Example page_task_fetch_failed :
  fst (fetch_and_parse_page http_down sample_parser 2 "https://x/"
         empty_world)
  = Return [].
Proof. reflexivity. Qed.

Example page_task_parsed :
  fst (fetch_and_parse_page (http_serving titled_html) sample_parser 2
         "https://x/" empty_world)
  = Return [("Art fair", "/y")].
Proof. vm_compute. reflexivity. Qed.

(** ** The orchestrator *)

Lemma display_entries_returns (news_list : list news) (i : Z) (w : World) :
  fst (display_entries i news_list w) = Return tt.
Proof.
  revert i w; induction news_list as [|[title link] rest IH]; intros i w.
  - reflexivity.
  - simpl. unfold bind, print. simpl. apply IH.
Qed.

Lemma display_news_returns (news_list : list news) (w : World) :
  fst (display_news news_list w) = Return tt.
Proof.
  destruct news_list as [|e rest]; [reflexivity|].
  unfold display_news, bind, print. apply display_entries_returns.
Qed.

Section OrchestratorProperties.
Variable result : nat -> Outcome (list news).

(** The loop appends the contribution of every future, in the order of
    completion, and counts each of them. *)
Lemma collect_spec (future_to_url : gmap nat (Z * string))
    (completed : list nat) (all_news : list news) (pbar : Z) (w : World) :
  (forall future, In future completed ->
                  is_Some (future_to_url !! future)) ->
  fst (collect result future_to_url completed all_news pbar w)
  = Return (all_news ++ gathered result completed,
            pbar + Z.of_nat (length completed)).
Proof.
  revert all_news pbar w.
  induction completed as [|future rest IH]; intros all_news pbar w Hkeys.
  - simpl. now rewrite app_nil_r, Z.add_0_r.
  - destruct (Hkeys future) as [[page base_url] Hkey]; [now left|].
    simpl. rewrite Hkey.
    unfold bind at 1, try_except, bind, lift, ret, print.
    destruct (result future) as [news_list|exc]; simpl;
      (rewrite IH; [|intros f Hf; apply Hkeys; now right]).
    + rewrite <- app_assoc. do 2 f_equal. lia.
    + do 2 f_equal. lia.
Qed.

Lemma gathered_Permutation (completed completed' : list nat) :
  completed ≡ₚ completed' ->
  gathered result completed ≡ₚ gathered result completed'.
Proof. apply Permutation_flat_map. Qed.

Lemma length_gathered (completed : list nat) :
  length (gathered result completed)
  = sum_list ((fun future => length (contribution (result future)))
                <$> completed).
Proof.
  induction completed as [|future rest IH]; [reflexivity|].
  unfold gathered in *. simpl. now rewrite length_app, IH.
Qed.

Variable lower : string -> string.

(** [main] ends with [all_news] gathered from every future of the
    completion order and the progress bar at their number. *)
Lemma main_with_spec (tasks : list (Z * string)) (line : string)
    (completed : list nat) (w : World) :
  completed ≡ₚ seq 0 (length tasks) ->
  fst (main_with lower result tasks line completed w)
  = Return (gathered result completed, Z.of_nat (length tasks)).
Proof.
  intros Hperm.
  assert (Hkeys : forall future, In future completed ->
                    is_Some (submit_all tasks !! future)).
  { intros future Hin. unfold submit_all.
    rewrite lookup_map_seq_0. apply lookup_lt_is_Some.
    apply list_elem_of_In in Hin. rewrite Hperm in Hin.
    apply elem_of_seq in Hin. lia. }
  assert (Hlen : length completed = length tasks).
  { rewrite (Permutation_length Hperm). apply length_seq. }
  unfold main_with, bind at 1.
  pose proof (collect_spec (submit_all tasks) completed [] 0 w Hkeys)
    as Hrun.
  destruct (collect _ _ _ _ _ w) as [[done|e] w1]; simpl in Hrun;
    [|discriminate].
  injection Hrun as ->. rewrite Hlen. simpl. unfold bind, ret.
  destruct (gathered result completed) as [|entry rest] eqn:Hg.
  - reflexivity.
  - pose proof (display_news_returns
                  (filter_news_by_keyword lower (entry :: rest)
                     (get_user_input line)) w1) as Hshow.
    destruct (display_news _ w1) as [[[]|e] w2]; simpl in Hshow;
      [reflexivity | discriminate].
Qed.
End OrchestratorProperties.

Lemma fmap_ext_in {A B} (f g : A -> B) (l : list A) :
  (forall x, In x l -> f x = g x) -> f <$> l = g <$> l.
Proof.
  induction l as [|x l IH]; intros H; [reflexivity|].
  rewrite !fmap_cons. f_equal; [apply H; now left|].
  apply IH. intros y Hy. apply H. now right.
Qed.

(** C1: when every page task returns a list, [main] ends with as many
    entries as the tasks returned together, whatever the order in which
    the futures complete: two completion orders give the same entries up
    to their order, and with [k] entries from each task the count is [k]
    times the number of tasks, two for each page of the range. *)
Theorem aggregate_size_order_independent (lower : string -> string)
    (start_page end_page : Z) (url_a url_b : string)
    (result : nat -> Outcome (list news)) (returned : nat -> list news)
    (line : string) (order order' : list nat) (w w' : World) :
  let tasks := worklist start_page end_page url_a url_b in
  let n := length tasks in
  (forall future : nat,
      (future < n)%nat -> result future = Return (returned future)) ->
  order ≡ₚ seq 0 n ->
  order' ≡ₚ seq 0 n ->
  exists all_news all_news' : list news,
    fst (main_with lower result tasks line order w)
    = Return (all_news, Z.of_nat n)
    /\ fst (main_with lower result tasks line order' w')
       = Return (all_news', Z.of_nat n)
    /\ length all_news
       = sum_list ((fun future => length (returned future)) <$> seq 0 n)
    /\ length all_news' = length all_news
    /\ all_news' ≡ₚ all_news
    /\ n = (2 * Z.to_nat (end_page + 1 - start_page))%nat
    /\ (forall k : nat,
          (forall future : nat,
              (future < n)%nat -> length (returned future) = k) ->
          length all_news = (k * n)%nat).
Proof.
  intros tasks n Hret Horder Horder'.
  assert (Hperm : gathered result order' ≡ₚ gathered result order).
  { apply gathered_Permutation. now rewrite Horder, Horder'. }
  assert (Hsize : length (gathered result order)
                  = sum_list ((fun future => length (returned future))
                                <$> seq 0 n)).
  { rewrite (Permutation_length (gathered_Permutation result _ _ Horder)).
    rewrite length_gathered. f_equal. apply fmap_ext_in.
    intros future Hin. apply list_elem_of_In, elem_of_seq in Hin.
    rewrite Hret by lia. reflexivity. }
  exists (gathered result order), (gathered result order').
  split; [now apply main_with_spec|].
  split; [now apply main_with_spec|].
  split; [exact Hsize|].
  split; [now apply Permutation_length|].
  split; [exact Hperm|].
  split; [apply length_worklist|].
  intros k Hk. rewrite Hsize.
  rewrite (sum_list_fmap_same k).
  - rewrite length_seq. lia.
  - apply Forall_forall. intros future Hin.
    apply elem_of_seq in Hin. apply Hk. lia.
Qed.

(** Two base URLs and the pages 2 and 3 with two entries from each task:
    eight entries for either completion order. *)
Lemma aggregate_size_order_independent_witness :
  (forall future : nat,
      (future < 4)%nat -> two_per_page future = two_per_page 0%nat)
  /\ [3; 1; 0; 2]%nat ≡ₚ seq 0 4
  /\ [0; 1; 2; 3]%nat ≡ₚ seq 0 4
  /\ exists all_news all_news' : list news,
       fst (main_with latin1_lower two_per_page
              (worklist 2 3 "https://x/" "https://y/") "art"
              [3; 1; 0; 2]%nat empty_world)
       = Return (all_news, 4)
       /\ fst (main_with latin1_lower two_per_page
                 (worklist 2 3 "https://x/" "https://y/") "art"
                 [0; 1; 2; 3]%nat empty_world)
          = Return (all_news', 4)
       /\ length all_news = 8%nat
       /\ length all_news' = 8%nat.
Proof.
  assert (H1 : forall future : nat,
             (future < 4)%nat -> two_per_page future = two_per_page 0%nat)
    by reflexivity.
  assert (H2 : [3; 1; 0; 2]%nat ≡ₚ seq 0 4) by (simpl; solve_Permutation).
  assert (H3 : [0; 1; 2; 3]%nat ≡ₚ seq 0 4) by reflexivity.
  split; [exact H1|]. split; [exact H2|]. split; [exact H3|].
  destruct (aggregate_size_order_independent latin1_lower 2 3
              "https://x/" "https://y/" two_per_page
              (fun _ => [("Art fair", "/y"); ("Auction", "/b")])
              "art" [3; 1; 0; 2]%nat [0; 1; 2; 3]%nat empty_world
              empty_world H1 H2 H3)
    as (all_news & all_news' & Hrun & Hrun' & _ & Hsame & _ & _ & Huniform).
  exists all_news, all_news'.
  split; [exact Hrun|]. split; [exact Hrun'|].
  assert (Hlen : length all_news = 8%nat)
    by (apply (Huniform 2%nat); reflexivity).
  split; [exact Hlen | now rewrite Hsame].
Defined.

Example main_sample :
  fst (main_with latin1_lower two_per_page
         (worklist 2 3 "https://x/" "https://y/") "art" [3; 1; 0; 2]%nat
         empty_world)
  = Return
      ([("Art fair", "/y"); ("Auction", "/b");
        ("Art fair", "/y"); ("Auction", "/b");
        ("Art fair", "/y"); ("Auction", "/b");
        ("Art fair", "/y"); ("Auction", "/b")], 4).
Proof. vm_compute. reflexivity. Qed.

(** A future that raised adds nothing and the others still count. *)
Example main_one_task_raises :
  fst (main_with latin1_lower
         (fun future =>
            if (future =? 1)%nat then Raise (OtherException "boom")
            else two_per_page future)
         (worklist 2 3 "https://x/" "https://y/") "" [3; 1; 0; 2]%nat
         empty_world)
  = Return
      ([("Art fair", "/y"); ("Auction", "/b");
        ("Art fair", "/y"); ("Auction", "/b");
        ("Art fair", "/y"); ("Auction", "/b")], 4).
Proof. vm_compute. reflexivity. Qed.

(** The whole pipeline on two base URLs and the pages 2 and 3, every page
    served as the titled sample page. *)
Example pipeline_sample :
  fst (main_with latin1_lower
         (submitted_results (fun _ => http_serving titled_html) sample_parser
            (worklist 2 3 "https://x/" "https://y/"))
         (worklist 2 3 "https://x/" "https://y/") "FAIR" [2; 0; 3; 1]%nat
         empty_world)
  = Return
      ([("Art fair", "/y"); ("Art fair", "/y"); ("Art fair", "/y");
        ("Art fair", "/y")], 4).
Proof. vm_compute. reflexivity. Qed.


(** ** The fetcher, attempt by attempt *)

Section RetryProperties.
Variable http : nat -> string -> Outcome Response.
Variables (url : string) (max_retries retry_delay : Z).
Hypothesis Hdelay : sleep_accepts retry_delay = true.

(** The world a failed attempt leaves. *)
Lemma fetch_html_attempt_fails_world (attempt : Z) (w : World) :
  attempt_fails (http (length (requested w)) url) = true ->
  fetch_html_attempt http url max_retries retry_delay attempt w
  = (Return NextIteration,
     after_failures http url max_retries retry_delay [attempt] w).
Proof.
  unfold attempt_fails, fetch_html_attempt, try_except, bind, requests_get,
    raise_for_status, ret, raise, print, sleep, after_failures,
    failure_lines, retry_delays, caught.
  rewrite Hdelay. simpl. rewrite Nat.add_0_r.
  destruct (http _ url) as [r|e]; intros H; simpl; rewrite H; simpl;
    destruct (attempt <? max_retries - 1); simpl;
    rewrite ?app_nil_r; reflexivity.
Qed.

Lemma after_failures_cons (attempt : Z) (attempts : list Z) (w : World) :
  after_failures http url max_retries retry_delay attempts
    (after_failures http url max_retries retry_delay [attempt] w)
  = after_failures http url max_retries retry_delay (attempt :: attempts) w.
Proof.
  unfold after_failures, failure_lines, retry_delays. simpl.
  rewrite length_app, <- !app_assoc. simpl. f_equal.
  rewrite Nat.add_0_r. do 2 f_equal. apply imap_ext.
  intros i attempt' _. simpl. do 3 f_equal. lia.
Qed.

(** A run of failed attempts in front of the loop. *)
Lemma fetch_html_loop_failures (failed rest : list Z) (w : World) :
  (forall i : nat,
      (i < length failed)%nat ->
      attempt_fails (http (length (requested w) + i)%nat url) = true) ->
  fetch_html_loop http url max_retries retry_delay (failed ++ rest) w
  = fetch_html_loop http url max_retries retry_delay rest
      (after_failures http url max_retries retry_delay failed w).
Proof.
  revert w; induction failed as [|attempt failed IH]; intros w Hfail.
  - simpl. f_equal. unfold after_failures, failure_lines, retry_delays.
    simpl. rewrite !app_nil_r. now destruct w.
  - simpl. unfold bind at 1.
    rewrite fetch_html_attempt_fails_world.
    2:{ rewrite <- (Nat.add_0_r (length _)). apply Hfail. simpl. lia. }
    rewrite IH.
    + now rewrite after_failures_cons.
    + intros i Hi. unfold after_failures at 1. simpl.
      rewrite length_app. simpl.
      replace (length (requested w) + 1 + i)%nat
        with (length (requested w) + S i)%nat by lia.
      apply Hfail. simpl. lia.
Qed.


End RetryProperties.

Section RetryOutcomes.
Variable http : nat -> string -> Outcome Response.
Variables (url : string) (max_retries retry_delay : Z).

(** The world an attempt leaves when the request raises an exception
    that is no [RequestException]: nothing is printed, nothing waited. *)
Lemma fetch_html_attempt_raises_world (attempt : Z) (w : World) (e : PyExc) :
  http (length (requested w)) url = Raise e ->
  is_RequestException e = false ->
  fetch_html_attempt http url max_retries retry_delay attempt w
  = (Raise e,
     {| requested := requested w ++ [url]; slept := slept w;
        stdout := stdout w |}).
Proof.
  intros Hget He.
  unfold fetch_html_attempt, try_except, bind, requests_get.
  rewrite Hget, He. reflexivity.
Qed.

(** An attempt fails, succeeds, or raises past the handler. *)
Lemma attempt_cases (o : Outcome Response) :
  attempt_fails o = true
  \/ (exists body, attempt_succeeds o = Some body)
  \/ (exists e, o = Raise e /\ is_RequestException e = false).
Proof.
  destruct o as [r|e]; simpl.
  - destruct (_ && _); eauto.
  - destruct (is_RequestException e) eqn:He; eauto.
Qed.



Hypothesis Hdelay : sleep_accepts retry_delay = true.

(** What the loop returns tells what the requests did, for a delay that
    [time.sleep] takes. *)
Lemma fetch_html_loop_sound (attempts : list Z) (w : World) :
  match
    fst (fetch_html_loop http url max_retries retry_delay attempts w)
  with
  | Return (Some body) =>
      exists k : nat,
        (k < length attempts)%nat
        /\ attempt_succeeds (http (length (requested w) + k)%nat url)
           = Some body
        /\ forall i : nat,
             (i < k)%nat ->
             attempt_fails (http (length (requested w) + i)%nat url) = true
  | Return None =>
      forall i : nat,
        (i < length attempts)%nat ->
        attempt_fails (http (length (requested w) + i)%nat url) = true
  | Raise e =>
      exists k : nat,
        (k < length attempts)%nat
        /\ http (length (requested w) + k)%nat url = Raise e
        /\ is_RequestException e = false
        /\ forall i : nat,
             (i < k)%nat ->
             attempt_fails (http (length (requested w) + i)%nat url) = true
  end.
Proof.
  revert w; induction attempts as [|attempt rest IH]; intros w.
  - simpl. intros i Hi. lia.
  - simpl. unfold bind at 1.
    destruct (attempt_cases (http (length (requested w)) url))
      as [Hfail|[[body Hok]|(e & Hget & He)]].
    + rewrite (fetch_html_attempt_fails_world http url max_retries
                 retry_delay Hdelay) by exact Hfail.
      specialize (IH (after_failures http url max_retries retry_delay
                        [attempt] w)).
      assert (Hlen : length (requested
                        (after_failures http url max_retries retry_delay
                           [attempt] w))
                     = S (length (requested w))).
      { unfold after_failures. simpl. rewrite length_app. simpl. lia. }
      rewrite Hlen in IH.
      assert (Hshift : forall k : nat,
                 (forall i : nat,
                     (i < k)%nat ->
                     attempt_fails
                       (http (S (length (requested w)) + i)%nat url) = true) ->
                 forall i : nat,
                   (i < S k)%nat ->
                   attempt_fails (http (length (requested w) + i)%nat url)
                   = true).
      { intros k Hk [|i] Hi; [now rewrite Nat.add_0_r|].
        replace (length (requested w) + S i)%nat
          with (S (length (requested w)) + i)%nat by lia.
        apply Hk. lia. }
      destruct (fst (fetch_html_loop _ _ _ _ rest _)) as [[body|]|e].
      * destruct IH as (k & Hk & Hok & Hbefore). exists (S k).
        replace (length (requested w) + S k)%nat
          with (S (length (requested w)) + k)%nat by lia.
        split; [simpl; lia|]. split; [exact Hok|]. now apply Hshift.
      * apply Hshift. exact IH.
      * destruct IH as (k & Hk & Hget & He & Hbefore). exists (S k).
        replace (length (requested w) + S k)%nat
          with (S (length (requested w)) + k)%nat by lia.
        split; [simpl; lia|]. split; [exact Hget|]. split; [exact He|].
        now apply Hshift.
    + rewrite (fetch_html_attempt_succeeds http url max_retries retry_delay
                 attempt w body Hok).
      simpl. exists 0%nat. rewrite Nat.add_0_r.
      split; [lia|]. split; [exact Hok|]. intros i Hi. lia.
    + rewrite (fetch_html_attempt_raises_world attempt w e Hget He).
      simpl. exists 0%nat. rewrite Nat.add_0_r.
      split; [lia|]. repeat split; auto. intros i Hi. lia.
Qed.
End RetryOutcomes.






(** X3: with [max_retries] at zero or below [fetch_html] sends no request
    and does not wait: it prints that the retries are exhausted and
    returns [None], whatever the network would have answered. *)
Theorem fetch_html_no_attempts (http : nat -> string -> Outcome Response)
    (url : string) (max_retries retry_delay : Z) (w : World) :
  max_retries <= 0 ->
  fetch_html http url max_retries retry_delay w
  = (Return None,
     {| requested := requested w; slept := slept w;
        stdout := stdout w ++ [RetriesExhausted url] |}).
Proof.
  intros Hle. unfold fetch_html, range. rewrite seqZ_nil by lia. reflexivity.
Qed.

(** No attempt allowed, against a server that would answer. *)
Lemma fetch_html_no_attempts_witness :
  0 <= 0
  /\ fetch_html (http_serving "<html></html>") "https://x/" 0 2 empty_world
     = (Return None,
        {| requested := []; slept := [];
           stdout := [RetriesExhausted "https://x/"] |}).
Proof.
  split; [lia|].
  apply (fetch_html_no_attempts (http_serving "<html></html>") "https://x/"
           0 2 empty_world).
  lia.
Defined.




(** ** The keyword filter on gathered lists *)

Lemma filter_comm {A} (f g : A -> bool) (l : list A) :
  List.filter f (List.filter g l) = List.filter g (List.filter f l).
Proof.
  induction l as [|x l IH]; simpl; [reflexivity|].
  destruct (f x) eqn:Hf, (g x) eqn:Hg; simpl; rewrite ?Hf, ?Hg, IH;
    reflexivity.
Qed.

Lemma filter_perm {A} (f : A -> bool) (l l' : list A) :
  l ≡ₚ l' -> List.filter f l ≡ₚ List.filter f l'.
Proof.
  induction 1 as [|x l l' _ IH|x y l|l l' l'' _ IH _ IH']; simpl.
  - reflexivity.
  - destruct (f x); [now constructor | exact IH].
  - destruct (f x), (f y); try reflexivity. apply perm_swap.
  - now rewrite IH.
Qed.

Section FilterComposition.
Variable lower : string -> string.

(** X6: filtering a concatenation is concatenating the filtered parts,
    for every keyword: the filter may run on the gathered list or on the
    list of each page. *)
Theorem filter_concatenation (k : option string) (L1 L2 : list news) :
  filter_news_by_keyword lower (L1 ++ L2) k
  = filter_news_by_keyword lower L1 k ++ filter_news_by_keyword lower L2 k.
Proof.
  destruct k as [kw|]; [|reflexivity]. unfold filter_news_by_keyword.
  destruct (str_truthy kw); simpl; [apply List.filter_app | reflexivity].
Qed.

(** X7: two keywords can be applied in either order. *)
Theorem filter_two_keywords (k1 k2 : option string) (L : list news) :
  filter_news_by_keyword lower (filter_news_by_keyword lower L k1) k2
  = filter_news_by_keyword lower (filter_news_by_keyword lower L k2) k1.
Proof.
  destruct k1 as [kw1|], k2 as [kw2|]; try reflexivity.
  unfold filter_news_by_keyword.
  destruct (str_truthy kw1), (str_truthy kw2); simpl; try reflexivity.
  apply filter_comm.
Qed.

(** X8: the filter does not depend on the order of its input beyond the
    order of its output: lists with the same entries in another order
    give results with the same entries. *)
Theorem filter_order_independent (k : option string) (L L' : list news) :
  L ≡ₚ L' ->
  filter_news_by_keyword lower L k ≡ₚ filter_news_by_keyword lower L' k.
Proof.
  intros Hperm. destruct k as [kw|]; [|exact Hperm].
  unfold filter_news_by_keyword.
  destruct (str_truthy kw); simpl; [now apply filter_perm | exact Hperm].
Qed.

(** X9: the filter ignores case on both sides: for non-empty keywords
    with the same lower-case form and two lists whose titles agree,
    position by position, up to case, it keeps the same positions of
    both lists, namely those where the lower-cased title of the first
    list contains the lower-cased first keyword. *)
Theorem filter_ignores_case (k1 k2 : string) (L L' : list news) :
  k1 <> "" ->
  k2 <> "" ->
  lower k1 = lower k2 ->
  Forall2 (fun e e' => lower (fst e) = lower (fst e')) L L' ->
  let keep := map (fun e => str_in (lower k1) (lower (fst e))) L in
  filter_news_by_keyword lower L (Some k1) = keep_positions keep L
  /\ filter_news_by_keyword lower L' (Some k2) = keep_positions keep L'.
Proof.
  intros H1 H2 Hlower Htitles keep. subst keep.
  rewrite !filter_some by assumption. rewrite <- Hlower.
  induction Htitles as [|e e' L L' He _ [IH IH']]; simpl; [now split|].
  rewrite <- He. destruct (str_in _ _); rewrite IH, IH'; now split.
Qed.
End FilterComposition.

(** The entries of [sample_news] in another order. *)
Lemma filter_order_independent_witness :
  sample_news ≡ₚ rev sample_news
  /\ filter_news_by_keyword latin1_lower sample_news (Some "art")
     ≡ₚ filter_news_by_keyword latin1_lower (rev sample_news) (Some "art").
Proof.
  assert (H : sample_news ≡ₚ rev sample_news)
    by (unfold sample_news; simpl; solve_Permutation).
  split; [exact H|].
  apply (filter_order_independent latin1_lower (Some "art") sample_news
           (rev sample_news) H).
Defined.

(** The keywords "ART" and "art" on the sample in either case: the
    first and the third position are kept in both. *)
Lemma filter_ignores_case_witness :
  "ART" <> "" /\ "art" <> "" /\ latin1_lower "ART" = latin1_lower "art"
  /\ Forall2 (fun e e' => latin1_lower (fst e) = latin1_lower (fst e'))
       sample_news sample_news_upper
  /\ filter_news_by_keyword latin1_lower sample_news (Some "ART")
     = keep_positions [true; false; true] sample_news
  /\ filter_news_by_keyword latin1_lower sample_news_upper (Some "art")
     = keep_positions [true; false; true] sample_news_upper.
Proof.
  assert (H : Forall2
                (fun e e' => latin1_lower (fst e) = latin1_lower (fst e'))
                sample_news sample_news_upper)
    by (repeat constructor).
  split; [discriminate|]. split; [discriminate|]. split; [reflexivity|].
  split; [exact H|].
  apply (filter_ignores_case latin1_lower "ART" "art" sample_news
           sample_news_upper);
    [discriminate | discriminate | reflexivity | exact H].
Defined.

(** ** The presenter *)

Lemma display_entries_run (news_list : list news) (j : nat) (w : World) :
  display_entries (Z.of_nat j + 1) news_list w
  = (Return tt,
     {| requested := requested w; slept := slept w;
        stdout :=
          stdout w
          ++ concat (imap (fun m => entry_lines (j + m)) news_list) |}).
Proof.
  revert j w; induction news_list as [|[title link] rest IH]; intros j w.
  - simpl. rewrite app_nil_r. now destruct w.
  - simpl. unfold bind, print. simpl.
    replace (Z.of_nat j + 1 + 1) with (Z.of_nat (S j) + 1) by lia.
    rewrite IH. simpl. do 2 f_equal. rewrite <- !app_assoc. f_equal.
    simpl. rewrite Nat.add_0_r. do 4 f_equal.
    apply imap_ext. intros m e _. simpl. f_equal. lia.
Qed.

Lemma length_entry_lines (news_list : list news) (j : nat) :
  length (concat (imap (fun m => entry_lines (j + m)) news_list))
  = (3 * length news_list)%nat.
Proof.
  revert j; induction news_list as [|e rest IH]; intros j; [reflexivity|].
  simpl. rewrite (imap_ext _ (fun m => entry_lines (S j + m)) rest).
  - rewrite IH. lia.
  - intros m x _. simpl. f_equal. lia.
Qed.

Lemma lookup_entry_lines (news_list : list news) (j i : nat) (entry : news) :
  news_list !! i = Some entry ->
  concat (imap (fun m => entry_lines (j + m)) news_list) !! (3 * i)%nat
  = Some (NumberedTitle (Z.of_nat (j + i) + 1) (fst entry)).
Proof.
  revert j i; induction news_list as [|x l IH]; intros j i Hi;
    [discriminate|].
  destruct i as [|i].
  - injection Hi as ->. simpl. now rewrite Nat.add_0_r.
  - simpl in Hi. replace (3 * S i)%nat with (S (S (S (3 * i)))) by lia.
    change (concat (imap ((fun m => entry_lines (j + m)) ∘ S) l)
              !! (3 * i)%nat
            = Some (NumberedTitle (Z.of_nat (j + S i) + 1) (fst entry))).
    rewrite (imap_ext _ (fun m => entry_lines (S j + m)) l).
    + rewrite (IH (S j) i Hi). do 3 f_equal. lia.
    + intros m y _. simpl. f_equal. lia.
Qed.

Lemma display_news_run (news_list : list news) (w : World) :
  display_news news_list w
  = (Return tt,
     {| requested := requested w; slept := slept w;
        stdout := stdout w ++ shown news_list |}).
Proof.
  destruct news_list as [|e rest]; [reflexivity|].
  unfold display_news, bind, print. simpl.
  change 1 with (Z.of_nat 0 + 1).
  rewrite (display_entries_run (e :: rest) 0). simpl.
  rewrite <- app_assoc. reflexivity.
Qed.

(** X10: [display_news] only prints.  For the empty list that is the one
    line that nothing matches; otherwise a separator and then, for the
    entry at each position, its number counted from 1 with its title,
    its link and a separator: one line and three more for each entry. *)
Theorem display_news_prints (news_list : list news) (w : World) :
  display_news news_list w
  = (Return tt,
     {| requested := requested w; slept := slept w;
        stdout := stdout w ++ shown news_list |})
  /\ length (shown news_list)
     = match news_list with
       | [] => 1%nat
       | _ :: _ => (1 + 3 * length news_list)%nat
       end
  /\ forall (i : nat) (entry : news),
       news_list !! i = Some entry ->
       shown news_list !! (1 + 3 * i)%nat
       = Some (NumberedTitle (Z.of_nat i + 1) (fst entry)).
Proof.
  split; [apply display_news_run|]. split.
  - destruct news_list as [|e rest]; [reflexivity|].
    change (S (length (concat (imap (fun m => entry_lines (0 + m))
                                   (e :: rest))))
            = (1 + 3 * length (e :: rest))%nat).
    rewrite length_entry_lines. reflexivity.
  - intros i entry Hi. destruct news_list as [|e rest]; [discriminate|].
    change (concat (imap (fun m => entry_lines (0 + m)) (e :: rest))
              !! (3 * i)%nat
            = Some (NumberedTitle (Z.of_nat (0 + i) + 1) (fst entry))).
    now apply lookup_entry_lines.
Qed.

Example display_sample :
  stdout (snd (display_news [("Art fair", "/y"); ("Auction", "/b")]
                 empty_world))
  = [Separator;
     NumberedTitle 1 "Art fair"; LinkLine "/y"; Separator;
     NumberedTitle 2 "Auction"; LinkLine "/b"; Separator].
Proof. reflexivity. Qed.

(** The second entry of the sample list is printed with the number 2. *)
Lemma display_news_prints_witness :
  sample_news !! 1%nat = Some ("Auction", "/b")
  /\ shown sample_news !! 4%nat = Some (NumberedTitle 2 "Auction").
Proof.
  split; [reflexivity|].
  exact (proj2 (proj2 (display_news_prints sample_news empty_world))
           1%nat ("Auction", "/b") eq_refl).
Defined.

(** ** The orchestrator, failures included *)

Section OrchestratorRuns.
Variable result : nat -> Outcome (list news).

(** The loop of [main] with the world it leaves: it prints one line for
    each future that raised and touches nothing else. *)
Lemma collect_run (tasks : list (Z * string)) (completed : list nat)
    (all_news : list news) (pbar : Z) (w : World) :
  (forall future, In future completed -> (future < length tasks)%nat) ->
  collect result (submit_all tasks) completed all_news pbar w
  = (Return (all_news ++ gathered result completed,
             pbar + Z.of_nat (length completed)),
     {| requested := requested w; slept := slept w;
        stdout := stdout w ++ task_failure_lines result tasks completed |}).
Proof.
  revert all_news pbar w.
  induction completed as [|future rest IH]; intros all_news pbar w Hkeys.
  - simpl. unfold ret. rewrite !app_nil_r, Z.add_0_r. now destruct w.
  - assert (Hlt : (future < length tasks)%nat) by (apply Hkeys; now left).
    destruct (lookup_lt_is_Some_2 tasks future Hlt) as [[page base_url] Hkey].
    change (task_failure_lines result tasks (future :: rest))
      with (match tasks !! future, result future with
            | Some (page, _), Raise exc => [TaskFailed page exc]
            | _, _ => []
            end ++ task_failure_lines result tasks rest).
    change (gathered result (future :: rest))
      with (contribution (result future) ++ gathered result rest).
    cbn [collect]. unfold submit_all at 1. rewrite lookup_map_seq_0, Hkey.
    unfold bind at 1, try_except, bind, lift, ret, print.
    destruct (result future) as [news_list|exc]; cbn [contribution];
      unfold is_Exception;
      (rewrite IH; [|intros f Hf; apply Hkeys; now right]);
      cbn [requested slept stdout length];
      rewrite <- ?app_assoc; do 3 f_equal; lia.
Qed.

Lemma completed_in_range (tasks : list (Z * string)) (completed : list nat) :
  completed ≡ₚ seq 0 (length tasks) ->
  forall future, In future completed -> (future < length tasks)%nat.
Proof.
  intros Hperm future Hin. apply list_elem_of_In in Hin.
  rewrite Hperm in Hin. apply elem_of_seq in Hin. lia.
Qed.

Lemma in_gathered (tasks : list (Z * string)) (completed : list nat)
    (entry : news) :
  completed ≡ₚ seq 0 (length tasks) ->
  In entry (gathered result completed)
  <-> exists future : nat,
        (future < length tasks)%nat
        /\ In entry (contribution (result future)).
Proof.
  intros Hperm. unfold gathered. rewrite in_flat_map. split.
  - intros (future & Hin & He). exists future.
    split; [now apply (completed_in_range tasks completed) | exact He].
  - intros (future & Hlt & He). exists future. split; [|exact He].
    apply list_elem_of_In. rewrite Hperm. apply elem_of_seq. lia.
Qed.
End OrchestratorRuns.

(** X11: a run of [main], whatever the futures hold and in whatever order
    they complete.  It returns the contributions of the futures in the
    order of completion and a progress count equal to the number of
    tasks; it sends no request and does not wait; it prints one line for
    each future that raised, with the page of its task, and then either
    that there are no articles, when nothing was gathered, or what
    [display_news] shows for the gathered list filtered by the keyword
    typed at the prompt. *)
Theorem main_run (lower : string -> string)
    (result : nat -> Outcome (list news)) (tasks : list (Z * string))
    (line : string) (completed : list nat) (w : World) :
  completed ≡ₚ seq 0 (length tasks) ->
  main_with lower result tasks line completed w
  = (Return (gathered result completed, Z.of_nat (length tasks)),
     {| requested := requested w; slept := slept w;
        stdout :=
          (stdout w ++ task_failure_lines result tasks completed)
          ++ match gathered result completed with
             | [] => [NoArticles]
             | _ :: _ =>
                 shown (filter_news_by_keyword lower
                          (gathered result completed)
                          (get_user_input line))
             end |}).
Proof.
  intros Hperm. unfold main_with, bind at 1.
  rewrite collect_run by now apply completed_in_range.
  rewrite (Permutation_length Hperm), length_seq. simpl.
  destruct (gathered result completed) as [|entry rest].
  - reflexivity.
  - unfold bind. rewrite display_news_run. reflexivity.
Qed.

(** Four tasks of which one raised, and the keyword "auction". *)
Lemma main_run_witness :
  [3; 1; 0; 2]%nat
  ≡ₚ seq 0 (length (worklist 2 3 "https://x/" "https://y/"))
  /\ stdout
       (snd (main_with latin1_lower one_task_raises
               (worklist 2 3 "https://x/" "https://y/") "auction"
               [3; 1; 0; 2]%nat empty_world))
     = [TaskFailed 3 (OtherException "boom");
        Separator;
        NumberedTitle 1 "Auction"; LinkLine "/b"; Separator;
        NumberedTitle 2 "Auction"; LinkLine "/b"; Separator;
        NumberedTitle 3 "Auction"; LinkLine "/b"; Separator].
Proof.
  assert (H : [3; 1; 0; 2]%nat
              ≡ₚ seq 0 (length (worklist 2 3 "https://x/" "https://y/")))
    by (simpl; solve_Permutation).
  split; [exact H|].
  rewrite (main_run latin1_lower one_task_raises
             (worklist 2 3 "https://x/" "https://y/") "auction"
             [3; 1; 0; 2]%nat empty_world H).
  reflexivity.
Defined.

(** X12: nothing is lost and nothing invented.  Whatever the futures
    hold, an entry is in the final [all_news] iff some page task returned
    it; a task that raised takes nothing away from the others, and the
    size is the sum of the sizes of the returned lists. *)
Theorem main_nothing_lost (lower : string -> string)
    (result : nat -> Outcome (list news)) (tasks : list (Z * string))
    (line : string) (completed : list nat) (w : World) :
  completed ≡ₚ seq 0 (length tasks) ->
  exists all_news : list news,
    fst (main_with lower result tasks line completed w)
    = Return (all_news, Z.of_nat (length tasks))
    /\ (forall entry : news,
          In entry all_news
          <-> exists future : nat,
                (future < length tasks)%nat
                /\ In entry (contribution (result future)))
    /\ length all_news
       = sum_list ((fun future => length (contribution (result future)))
                     <$> seq 0 (length tasks)).
Proof.
  intros Hperm. exists (gathered result completed).
  split; [now apply main_with_spec|]. split.
  - intros entry. now apply in_gathered.
  - rewrite (Permutation_length (gathered_Permutation result _ _ Hperm)).
    apply length_gathered.
Qed.

(** Four tasks of which one raised: six entries are left. *)
Lemma main_nothing_lost_witness :
  [3; 1; 0; 2]%nat
  ≡ₚ seq 0 (length (worklist 2 3 "https://x/" "https://y/"))
  /\ exists all_news : list news,
       fst (main_with latin1_lower one_task_raises
              (worklist 2 3 "https://x/" "https://y/") "" [3; 1; 0; 2]%nat
              empty_world)
       = Return (all_news, 4)
       /\ length all_news = 6%nat.
Proof.
  assert (H : [3; 1; 0; 2]%nat
              ≡ₚ seq 0 (length (worklist 2 3 "https://x/" "https://y/")))
    by (simpl; solve_Permutation).
  split; [exact H|].
  destruct (main_nothing_lost latin1_lower one_task_raises
              (worklist 2 3 "https://x/" "https://y/") ""
              [3; 1; 0; 2]%nat empty_world H)
    as (all_news & Hrun & _ & Hlen).
  exists all_news. split; [exact Hrun | exact Hlen].
Defined.

Lemma submitted_results_all_fail
    (http : nat -> nat -> string -> Outcome Response)
    (BeautifulSoup : string -> Outcome PageElement)
    (tasks : list (Z * string)) (future : nat) :
  (forall (f n : nat) (url : string), attempt_fails (http f n url) = true) ->
  (future < length tasks)%nat ->
  submitted_results http BeautifulSoup tasks future = Return [].
Proof.
  intros Hfail Hlt. unfold submitted_results.
  destruct (lookup_lt_is_Some_2 tasks future Hlt) as [[page base_url] ->].
  rewrite fetch_and_parse_page_run. unfold fetch_html.
  destruct (fetch_html_loop_all_fail (http future) (page_url page base_url)
              default_max_retries default_retry_delay eq_refl
              (range 0 default_max_retries) empty_world) as [Hnone _].
  { intros i _. apply Hfail. }
  destruct (fetch_html_loop _ _ _ _ _ empty_world) as [[[body|]|e] w'];
    simpl in Hnone; try discriminate.
  reflexivity.
Qed.

(** X13: when every request of every page task fails, [main] still runs
    to its end: it counts every task, gathers nothing, prints that there
    are no articles and raises nothing. *)
Theorem main_all_fetches_fail (lower : string -> string)
    (http : nat -> nat -> string -> Outcome Response)
    (BeautifulSoup : string -> Outcome PageElement)
    (tasks : list (Z * string)) (line : string) (completed : list nat)
    (w : World) :
  (forall (f n : nat) (url : string), attempt_fails (http f n url) = true) ->
  completed ≡ₚ seq 0 (length tasks) ->
  main_with lower (submitted_results http BeautifulSoup tasks) tasks line
    completed w
  = (Return ([], Z.of_nat (length tasks)),
     {| requested := requested w; slept := slept w;
        stdout := stdout w ++ [NoArticles] |}).
Proof.
  intros Hfail Hperm.
  pose proof (completed_in_range tasks completed Hperm) as Hrange.
  assert (Hnone : forall future, In future completed ->
                    submitted_results http BeautifulSoup tasks future
                    = Return []).
  { intros future Hin. apply submitted_results_all_fail; auto. }
  assert (Hg : gathered (submitted_results http BeautifulSoup tasks) completed
               = []).
  { unfold gathered. clear Hperm Hrange.
    induction completed as [|future rest IH]; [reflexivity|].
    simpl. rewrite Hnone by now left. simpl.
    apply IH. intros f Hf. apply Hnone. now right. }
  assert (Hl : task_failure_lines (submitted_results http BeautifulSoup tasks)
                 tasks completed = []).
  { unfold task_failure_lines. clear Hperm Hrange Hg.
    induction completed as [|future rest IH]; [reflexivity|].
    simpl. rewrite Hnone by now left.
    destruct (tasks !! future) as [[page base_url]|]; simpl;
      apply IH; intros f Hf; apply Hnone; now right. }
  unfold main_with, bind at 1.
  rewrite collect_run by exact Hrange.
  rewrite Hg, Hl, (Permutation_length Hperm), length_seq. simpl.
  unfold bind, print, ret. simpl. rewrite app_nil_r. reflexivity.
Qed.

(** The script's own worklist against servers that are down. *)
Lemma main_all_fetches_fail_witness :
  (forall (f n : nat) (url : string),
      attempt_fails (http_down n url) = true)
  /\ seq 0 (length urls_to_fetch) ≡ₚ seq 0 (length urls_to_fetch)
  /\ fst (main latin1_lower (fun _ => http_down) sample_parser "art"
            (seq 0 (length urls_to_fetch)) empty_world)
     = Return ([], 198).
Proof.
  assert (H1 : forall (f n : nat) (url : string),
             attempt_fails (http_down n url) = true) by reflexivity.
  assert (H2 : seq 0 (length urls_to_fetch) ≡ₚ seq 0 (length urls_to_fetch))
    by reflexivity.
  split; [exact H1|]. split; [exact H2|].
  unfold main.
  rewrite (main_all_fetches_fail latin1_lower (fun _ => http_down)
             sample_parser urls_to_fetch "art" (seq 0 (length urls_to_fetch))
             empty_world H1 H2).
  reflexivity.
Defined.

(** ** The worklist by position *)

(** X14: the futures are submitted page by page for the first base URL
    and then page by page for the second one: with [n] pages in the
    range, the future at position [i] below [n] has page [start_page + i]
    of the first URL, the one at position [n + i] has that page of the
    second URL, and there is no future from position [2 * n] on. *)
Theorem worklist_by_position (start_page end_page : Z)
    (url_a url_b : string) (i : nat) :
  let n := Z.to_nat (end_page + 1 - start_page) in
  submit_all (worklist start_page end_page url_a url_b) !! i
  = if (i <? n)%nat then Some (start_page + Z.of_nat i, url_a)
    else if (i <? 2 * n)%nat
         then Some (start_page + Z.of_nat (i - n), url_b)
         else None.
Proof.
  intros n. unfold submit_all. rewrite lookup_map_seq_0. unfold worklist.
  assert (Hlen : length ((fun page => (page, url_a))
                           <$> range start_page (end_page + 1)) = n).
  { rewrite length_fmap. apply length_range. }
  destruct (Nat.ltb_spec i n) as [Hi|Hi].
  - rewrite lookup_app_l by lia. rewrite list_lookup_fmap.
    unfold range. rewrite lookup_seqZ_lt by lia. reflexivity.
  - rewrite lookup_app_r by lia. rewrite Hlen, list_lookup_fmap.
    unfold range. destruct (Nat.ltb_spec i (2 * n)) as [Hi2|Hi2].
    + rewrite lookup_seqZ_lt by lia. reflexivity.
    + rewrite lookup_seqZ_ge by lia. reflexivity.
Qed.

Example urls_to_fetch_positions :
  submit_all urls_to_fetch !! 0%nat = Some (2, NEWS_URL_CONSTANT)
  /\ submit_all urls_to_fetch !! 98%nat = Some (100, NEWS_URL_CONSTANT)
  /\ submit_all urls_to_fetch !! 99%nat = Some (2, NEWS_URL_1)
  /\ submit_all urls_to_fetch !! 197%nat = Some (100, NEWS_URL_1)
  /\ submit_all urls_to_fetch !! 198%nat = None.
Proof. repeat split; vm_compute; reflexivity. Qed.

(** ** The URLs of a run *)

Lemma append_inj_l (b x y : string) : b +:+ x = b +:+ y -> x = y.
Proof.
  induction b as [|c b IH]; [tauto|].
  rewrite !append_cons. intros [= H]. auto.
Qed.

Lemma append_char_inj_r (c : ascii) (x y : string) :
  x +:+ String c "" = y +:+ String c "" -> x = y.
Proof.
  revert y; induction x as [|a x IH]; intros [|b y]; rewrite ?append_cons.
  - reflexivity.
  - rewrite append_nil_l. intros [= _ H]. destruct y; discriminate.
  - rewrite append_nil_l. intros [= _ H]. destruct x; discriminate.
  - intros [= -> H]. f_equal. auto.
Qed.

Lemma append_grows (b : string) (c : ascii) (x : string) :
  b <> b +:+ String c x.
Proof.
  induction b as [|a b IH]; [discriminate|].
  rewrite append_cons. intros [= H]. contradiction.
Qed.

Lemma str_of_int_inj (p q : Z) : str_of_int p = str_of_int q -> p = q.
Proof.
  intros H. pose proof (str_of_int_roundtrip p) as Hp.
  rewrite H, str_of_int_roundtrip in Hp. congruence.
Qed.

(** Pages of one base URL have URLs of their own. *)
Lemma page_url_inj (base_url : string) (p q : Z) :
  page_url p base_url = page_url q base_url -> p = q.
Proof.
  unfold page_url.
  destruct (Z.eqb_spec p 1) as [->|Hp], (Z.eqb_spec q 1) as [->|Hq].
  - reflexivity.
  - intros H. now apply append_grows in H.
  - intros H. symmetry in H. now apply append_grows in H.
  - intros H. apply append_inj_l in H.
    change ("page/" +:+ str_of_int p +:+ "/")
      with ("page/" +:+ (str_of_int p +:+ "/")) in H.
    apply (append_inj_l "page/") in H.
    apply append_char_inj_r in H. now apply str_of_int_inj.
Qed.

(** No page of the first base URL has the URL of a page of the second. *)
Lemma page_url_bases_apart (p q : Z) :
  page_url p NEWS_URL_CONSTANT <> page_url q NEWS_URL_1.
Proof.
  unfold page_url, NEWS_URL_CONSTANT, NEWS_URL_1.
  destruct (p =? 1), (q =? 1); intros H;
    cbv -[str_of_int] in H; discriminate H.
Qed.

(** X15: no URL is fetched by two tasks of a run: two tasks of the
    script's worklist that request the same URL are the same task. *)
Theorem request_urls_distinct (page page' : Z) (base_url base_url' : string) :
  In (page, base_url) urls_to_fetch ->
  In (page', base_url') urls_to_fetch ->
  page_url page base_url = page_url page' base_url' ->
  (page, base_url) = (page', base_url').
Proof.
  intros Hin Hin' Hurl.
  apply list_elem_of_In, elem_of_worklist in Hin as [_ Hbase].
  apply list_elem_of_In, elem_of_worklist in Hin' as [_ Hbase'].
  destruct Hbase as [->| ->], Hbase' as [->| ->].
  - f_equal. now apply page_url_inj in Hurl.
  - now apply page_url_bases_apart in Hurl.
  - symmetry in Hurl. now apply page_url_bases_apart in Hurl.
  - f_equal. now apply page_url_inj in Hurl.
Qed.

(** Page 7 of the first base URL, twice. *)
Lemma request_urls_distinct_witness :
  In (7, NEWS_URL_CONSTANT) urls_to_fetch
  /\ page_url 7 NEWS_URL_CONSTANT = page_url 7 NEWS_URL_CONSTANT
  /\ (7, NEWS_URL_CONSTANT) = (7, NEWS_URL_CONSTANT).
Proof.
  assert (H : In (7, NEWS_URL_CONSTANT) urls_to_fetch).
  { apply list_elem_of_In, elem_of_worklist.
    split; [unfold START_PAGE, END_PAGE; lia | now left]. }
  split; [exact H|]. split; [reflexivity|].
  exact (request_urls_distinct 7 7 NEWS_URL_CONSTANT NEWS_URL_CONSTANT
           H H eq_refl).
Defined.

(** ** Titles come out stripped *)

Lemma append_nil_r (s : string) : s +:+ "" = s.
Proof. induction s as [|c s IH]; [reflexivity|]. now rewrite append_cons, IH. Qed.

Lemma str_lstrip_starts_clean (s : string) : starts_clean (str_lstrip s).
Proof.
  induction s as [|c s IH]; simpl; [exact I|].
  destruct (chr_isspace c) eqn:Hc; [exact IH | exact Hc].
Qed.

Lemma str_lstrip_clean (s : string) : starts_clean s -> str_lstrip s = s.
Proof. destruct s as [|c s]; simpl; [reflexivity|]. now intros ->. Qed.

Lemma str_rstrip_idem (s : string) : str_rstrip (str_rstrip s) = str_rstrip s.
Proof.
  induction s as [|c s IH]; simpl; [reflexivity|].
  destruct (str_rstrip s) as [|d r] eqn:Hr.
  - destruct (chr_isspace c) eqn:Hc; simpl; [reflexivity | now rewrite Hc].
  - change (str_rstrip (String c (String d r))) with
      (match str_rstrip (String d r) with
       | EmptyString => if chr_isspace c then EmptyString
                        else String c EmptyString
       | r' => String c r'
       end).
    now rewrite IH.
Qed.

Lemma str_rstrip_starts_clean (s : string) :
  starts_clean s -> starts_clean (str_rstrip s).
Proof.
  destruct s as [|c s]; simpl; [tauto|]. intros Hc.
  destruct (str_rstrip s); [now rewrite Hc | exact Hc].
Qed.

Lemma str_rstrip_append (a b : string) :
  str_rstrip b <> "" -> str_rstrip (a +:+ b) = a +:+ str_rstrip b.
Proof.
  intros Hb. induction a as [|c a IH]; [reflexivity|].
  rewrite !append_cons. simpl. rewrite IH.
  destruct (a +:+ str_rstrip b) as [|d r] eqn:Hab; [|reflexivity].
  destruct a; [now rewrite append_nil_l in Hab | discriminate].
Qed.

(** A piece is stripped when it is the same after [strip], in the form of
    its two ends. *)
Lemma str_strip_ends (s : string) :
  starts_clean (str_strip s) /\ str_rstrip (str_strip s) = str_strip s.
Proof.
  unfold str_strip. split.
  - apply str_rstrip_starts_clean, str_lstrip_starts_clean.
  - apply str_rstrip_idem.
Qed.

Lemma join_stripped (pieces : list string) :
  (forall x, In x pieces ->
             x <> "" /\ starts_clean x /\ str_rstrip x = x) ->
  starts_clean (fold_right String.append "" pieces)
  /\ str_rstrip (fold_right String.append "" pieces)
     = fold_right String.append "" pieces.
Proof.
  induction pieces as [|x rest IH]; intros Hall; [now split|].
  destruct (Hall x) as (Hne & Hstart & Hend); [now left|].
  destruct IH as [_ IHend]; [intros y Hy; apply Hall; now right|].
  simpl. set (tail := fold_right String.append "" rest) in *.
  split.
  - destruct x as [|c x]; [contradiction | exact Hstart].
  - destruct tail as [|d t] eqn:Ht.
    + now rewrite append_nil_r.
    + rewrite str_rstrip_append; rewrite IHend; [reflexivity | discriminate].
Qed.

Lemma get_text_strip_stripped (e : PageElement) :
  str_strip (get_text_strip e) = get_text_strip e.
Proof.
  unfold get_text_strip.
  destruct (join_stripped (stripped_strings e)) as [Hstart Hend].
  - intros x Hx.
    apply in_stripped_strings in Hx as (kind & s & _ & _ & Hs & ->).
    split; [|apply str_strip_ends].
    rewrite str_strip_empty. congruence.
  - unfold str_strip at 1. now rewrite str_lstrip_clean.
Qed.

(** X16: the titles [parse_news] returns carry no white space at either
    end: stripping a returned title gives the title back. *)
Theorem parse_news_titles_stripped
    (BeautifulSoup : string -> Outcome PageElement) (html : string)
    (w : World) (title link : string) :
  In (title, link) (contribution (fst (parse_news BeautifulSoup html w))) ->
  str_strip title = title.
Proof.
  rewrite parse_news_run.
  destruct (BeautifulSoup html) as [soup|e]; simpl; [|tauto].
  rewrite parse_items_spec. simpl.
  rewrite <- list_elem_of_In, list_elem_of_omap.
  intros (item & _ & Hentry). unfold entry_of in Hentry.
  destruct (find_a_c_title_link item) as [a_tag|]; [|discriminate].
  destruct (tag_attrs a_tag !! "href"); [|discriminate].
  injection Hentry as <- _. apply get_text_strip_stripped.
Qed.

(** The sample page whose link text has a blank at either end. *)
Lemma parse_news_titles_stripped_witness :
  In ("Art fair", "/y")
     (contribution (fst (parse_news sample_parser titled_html empty_world)))
  /\ str_strip "Art fair" = "Art fair".
Proof.
  assert (H : In ("Art fair", "/y")
                (contribution
                   (fst (parse_news sample_parser titled_html empty_world))))
    by (vm_compute; left; reflexivity).
  split; [exact H|].
  exact (parse_news_titles_stripped sample_parser titled_html empty_world
           "Art fair" "/y" H).
Defined.

(** ** The page task, from the network to the entries *)

(** X17: a page none of whose three attempts gets through costs three
    requests to its URL and two pauses of two seconds, is reported by
    four console lines, and gives the empty list. *)
Theorem page_task_gives_up (http : nat -> string -> Outcome Response)
    (BeautifulSoup : string -> Outcome PageElement)
    (page : Z) (base_url : string) (w : World) :
  (forall i : nat,
      (i < 3)%nat ->
      attempt_fails
        (http (length (requested w) + i)%nat (page_url page base_url))
      = true) ->
  fetch_and_parse_page http BeautifulSoup page base_url w
  = (Return [],
     {| requested := requested w ++ replicate 3 (page_url page base_url);
        slept := slept w ++ [2; 2];
        stdout :=
          (stdout w
           ++ failure_lines http (page_url page base_url) 3
                (length (requested w)) [0; 1; 2])
          ++ [RetriesExhausted (page_url page base_url)] |}).
Proof.
  intros Hfail. rewrite fetch_and_parse_page_run. unfold fetch_html.
  rewrite <- (app_nil_r (range 0 default_max_retries)).
  rewrite (fetch_html_loop_failures http (page_url page base_url)
             default_max_retries default_retry_delay eq_refl)
    by exact Hfail.
  reflexivity.
Qed.

(** Page 2 of a server that is down. *)
Lemma page_task_gives_up_witness :
  (forall i : nat,
      (i < 3)%nat ->
      attempt_fails
        (http_down (length (requested empty_world) + i)%nat
           (page_url 2 "https://x/"))
      = true)
  /\ fetch_and_parse_page http_down sample_parser 2 "https://x/" empty_world
     = (Return [],
        {| requested :=
             ["https://x/page/2/"; "https://x/page/2/"; "https://x/page/2/"];
           slept := [2; 2];
           stdout :=
             [AttemptFailed "https://x/page/2/" 1 3
                (RequestException "connection refused");
              AttemptFailed "https://x/page/2/" 2 3
                (RequestException "connection refused");
              AttemptFailed "https://x/page/2/" 3 3
                (RequestException "connection refused");
              RetriesExhausted "https://x/page/2/"] |}).
Proof.
  assert (H : forall i : nat,
             (i < 3)%nat ->
             attempt_fails
               (http_down (length (requested empty_world) + i)%nat
                  (page_url 2 "https://x/"))
             = true)
    by reflexivity.
  split; [exact H|].
  rewrite (page_task_gives_up http_down sample_parser 2 "https://x/"
             empty_world H).
  reflexivity.
Defined.

(** X18: the entries of a page task come from a page that was really
    served: a list the task returns is empty, or it is, in document
    order, what the containers of the parsed body of the first response
    without an error status give, that response being one of the three
    attempts and every attempt before it having failed. *)
Theorem page_task_sound (http : nat -> string -> Outcome Response)
    (BeautifulSoup : string -> Outcome PageElement)
    (page : Z) (base_url : string) (w : World) (news_list : list news) :
  fst (fetch_and_parse_page http BeautifulSoup page base_url w)
  = Return news_list ->
  news_list = []
  \/ exists (k : nat) (body : string) (soup : PageElement),
       (k < 3)%nat
       /\ attempt_succeeds
            (http (length (requested w) + k)%nat (page_url page base_url))
          = Some body
       /\ (forall i : nat,
             (i < k)%nat ->
             attempt_fails
               (http (length (requested w) + i)%nat
                  (page_url page base_url))
             = true)
       /\ BeautifulSoup body = Return soup
       /\ news_list = omap entry_of (select_h3_c_title soup).
Proof.
  rewrite fetch_and_parse_page_run. unfold fetch_html.
  pose proof (fetch_html_loop_sound http (page_url page base_url)
                default_max_retries default_retry_delay eq_refl
                (range 0 default_max_retries) w) as Hsound.
  destruct (fetch_html_loop _ _ _ _ _ w) as [[[body|]|e] w'] eqn:Hrun;
    simpl in Hsound; simpl.
  - destruct (str_truthy body); [|intros [= <-]; now left].
    rewrite parse_news_run.
    destruct (BeautifulSoup body) as [soup|e] eqn:Hsoup; simpl;
      [|intros [= <-]; now left].
    rewrite parse_items_spec. simpl. intros [= <-]. right.
    destruct Hsound as (k & Hk & Hok & Hbefore).
    exists k, body, soup. auto.
  - intros [= <-]. now left.
  - discriminate.
Qed.

(** A timeout, a 503, and then the titled sample page. *)
Lemma page_task_sound_witness :
  fst (fetch_and_parse_page (http_third_time titled_html) sample_parser 2
         "https://x/" empty_world)
  = Return [("Art fair", "/y")]
  /\ ([("Art fair", "/y")] = []
      \/ exists (k : nat) (body : string) (soup : PageElement),
           (k < 3)%nat
           /\ attempt_succeeds
                (http_third_time titled_html
                   (length (requested empty_world) + k)%nat
                   (page_url 2 "https://x/"))
              = Some body
           /\ sample_parser body = Return soup
           /\ [("Art fair", "/y")] = omap entry_of (select_h3_c_title soup)).
Proof.
  assert (H : fst (fetch_and_parse_page (http_third_time titled_html)
                     sample_parser 2 "https://x/" empty_world)
              = Return [("Art fair", "/y")])
    by (vm_compute; reflexivity).
  split; [exact H|].
  destruct (page_task_sound (http_third_time titled_html) sample_parser 2
              "https://x/" empty_world [("Art fair", "/y")] H)
    as [Hnil|(k & body & soup & Hk & Hok & _ & Hsoup & Hlist)].
  - left. exact Hnil.
  - right. exists k, body, soup. auto.
Defined.

(** ** What the operator sees, whatever the completion order *)

Lemma length_shown (news_list : list news) :
  length (shown news_list)
  = match news_list with
    | [] => 1%nat
    | _ :: _ => (1 + 3 * length news_list)%nat
    end.
Proof.
  destruct news_list as [|e rest]; [reflexivity|].
  change (S (length (concat (imap (fun m => entry_lines (0 + m))
                                 (e :: rest))))
          = (1 + 3 * length (e :: rest))%nat).
  rewrite length_entry_lines. reflexivity.
Qed.

Lemma length_shown_Permutation (l l' : list news) :
  l ≡ₚ l' -> length (shown l) = length (shown l').
Proof.
  intros Hperm. rewrite !length_shown.
  pose proof (Permutation_length Hperm) as Hlen.
  destruct l, l'; simpl in *; try discriminate; lia.
Qed.

Lemma main_with_stdout (lower : string -> string)
    (result : nat -> Outcome (list news)) (tasks : list (Z * string))
    (line : string) (completed : list nat) (w : World) :
  completed ≡ₚ seq 0 (length tasks) ->
  stdout (snd (main_with lower result tasks line completed w))
  = (stdout w ++ task_failure_lines result tasks completed)
    ++ match gathered result completed with
       | [] => [NoArticles]
       | _ :: _ =>
           shown (filter_news_by_keyword lower (gathered result completed)
                    (get_user_input line))
       end.
Proof.
  intros Hperm. unfold main_with, bind at 1.
  rewrite collect_run by now apply completed_in_range.
  simpl. destruct (gathered result completed) as [|entry rest].
  - reflexivity.
  - unfold bind. rewrite display_news_run. reflexivity.
Qed.

(** X19: the completion order changes neither which entries are shown nor
    how much is printed: for two completion orders the filtered lists
    have the same entries, up to their order, and [main] prints the same
    number of lines. *)
Theorem main_shows_the_same (lower : string -> string)
    (result : nat -> Outcome (list news)) (tasks : list (Z * string))
    (line : string) (order order' : list nat) (w : World) :
  order ≡ₚ seq 0 (length tasks) ->
  order' ≡ₚ seq 0 (length tasks) ->
  filter_news_by_keyword lower (gathered result order) (get_user_input line)
  ≡ₚ filter_news_by_keyword lower (gathered result order')
       (get_user_input line)
  /\ length (stdout (snd (main_with lower result tasks line order w)))
     = length (stdout (snd (main_with lower result tasks line order' w))).
Proof.
  intros Horder Horder'.
  assert (Hperm : order ≡ₚ order') by now rewrite Horder, Horder'.
  assert (Hg : gathered result order ≡ₚ gathered result order')
    by now apply gathered_Permutation.
  assert (Hf : filter_news_by_keyword lower (gathered result order)
                 (get_user_input line)
               ≡ₚ filter_news_by_keyword lower (gathered result order')
                    (get_user_input line)).
  { destruct (get_user_input line) as [kw|]; [|exact Hg].
    unfold filter_news_by_keyword.
    destruct (str_truthy kw); simpl; [now apply filter_perm | exact Hg]. }
  split; [exact Hf|].
  rewrite !main_with_stdout by assumption.
  rewrite !length_app. f_equal.
  - f_equal. apply Permutation_length.
    unfold task_failure_lines. now apply Permutation_flat_map.
  - pose proof (Permutation_length Hg) as Hlen.
    destruct (gathered result order), (gathered result order');
      simpl in Hlen; try discriminate; [reflexivity|].
    now apply length_shown_Permutation.
Qed.

(** Four tasks of which one raised, in two completion orders. *)
Lemma main_shows_the_same_witness :
  [3; 1; 0; 2]%nat
  ≡ₚ seq 0 (length (worklist 2 3 "https://x/" "https://y/"))
  /\ [0; 1; 2; 3]%nat
     ≡ₚ seq 0 (length (worklist 2 3 "https://x/" "https://y/"))
  /\ length
       (stdout
          (snd (main_with latin1_lower one_task_raises
                  (worklist 2 3 "https://x/" "https://y/") "auction"
                  [3; 1; 0; 2]%nat empty_world)))
     = length
         (stdout
            (snd (main_with latin1_lower one_task_raises
                    (worklist 2 3 "https://x/" "https://y/") "auction"
                    [0; 1; 2; 3]%nat empty_world))).
Proof.
  assert (H : [3; 1; 0; 2]%nat
              ≡ₚ seq 0 (length (worklist 2 3 "https://x/" "https://y/")))
    by (simpl; solve_Permutation).
  assert (H' : [0; 1; 2; 3]%nat
               ≡ₚ seq 0 (length (worklist 2 3 "https://x/" "https://y/")))
    by reflexivity.
  split; [exact H|]. split; [exact H'|].
  exact (proj2 (main_shows_the_same latin1_lower one_task_raises
                  (worklist 2 3 "https://x/" "https://y/") "auction"
                  [3; 1; 0; 2]%nat [0; 1; 2; 3]%nat empty_world H H')).
Defined.

